(** * AssistedManipulation: forecasters, Kalman filter, objective and sampler

    A shallow embedding of the wrench forecasters ([controller/forecast.cpp]),
    the Kalman filter ([controller/kalman.cpp]), the assisted manipulation
    objective ([frankaridgeback/objective/assisted_manipulation.cpp]), the
    point tracking objective ([frankaridgeback/objective/track_point.cpp])
    and the Gaussian sampler and weighting step of the MPPI trajectory
    generator ([controller/mppi.hpp]).

    Numbers.  A C++ [double] is a rational [Q], so every definition
    computes.  Sums, products and comparisons are taken exactly.  Where the
    code converts a [double] to an integer ([forecast], [create] of the
    Kalman forecaster) one unit in the last place changes the result, so
    there the quotient and the difference are rounded to the nearest
    [double] as IEEE 754 does ([Double.round]), and a value that is no
    finite number, or no value of the integer type, yields no result.
    A [double] that can be NaN (the manipulability cost) is an [option Q].
    Where the code calls [exp] or [sqrt] on values that are only compared and
    summed (the weighting step, the sampler and the point tracking
    objective) a [double] is a real number [R].
    An [unsigned int] is a [nat] where it counts or indexes (dimensions
    whose products stay below [2^32]) and a [Z] with the wrap-around at
    [2^32] written out in [factorial]. *)

From Stdlib Require Import ZArith QArith Qround Qpower Qminmax Qabs List Bool Psatz.
From Stdlib Require Import Reals.
Import ListNotations.

Local Open Scope Q_scope.

(** ** Scalars and dynamic vectors *)

(** [a < b] on doubles. *)
Definition Qltb (a b : Q) : bool := negb (Qle_bool b a).

(** Sequencing of steps that may yield no result. *)
Definition obind {A B : Type} (a : option A) (k : A -> option B) : option B :=
  match a with
  | Some x => k x
  | None => None
  end.

Notation "'let*' x ':=' a 'in' k" := (obind a (fun x => k))
  (at level 10, x name, a at level 100, k at level 200, only parsing).

(** ** Arithmetic of [double] where the last place matters *)

Module Double.

(** The integer [e] with [2^e <= q < 2^(e+1)], for a positive [q]. *)
Definition ilog2 (q : Q) : Z :=
  let k := (Z.log2 (Qnum q) - Z.log2 (Zpos (Qden q)))%Z in
  if Qle_bool (2 ^ k) q then k else (k - 1)%Z.

(** The integer nearest to [m >= 0], the even one of two at equal distance. *)
Definition nearest_even (m : Q) : Z :=
  let f := Qfloor m in
  let r := m - inject_Z f in
  if Qltb r (1 # 2) then f
  else if Qltb (1 # 2) r then (f + 1)%Z
  else if Z.even f then f else (f + 1)%Z.

(** The binary64 number nearest to [q], ties to the even significand: 53
    bits of significand, the unit in the last place no smaller than
    [2^-1074].  [None] is an infinity: the rounded magnitude reaches
    [2^1024]. *)
Definition round (q : Q) : option Q :=
  match Qnum q with
  | Z0 => Some 0
  | _ =>
    let a := Qabs q in
    let p := Z.max (ilog2 a - 52) (-1074) in
    let r := inject_Z (nearest_even (a / 2 ^ p)) * 2 ^ p in
    if Qle_bool (2 ^ 1024) r then None
    else Some (Qred (if Qltb q 0 then - r else r))
  end.

(** [a - b] and [a / b] on doubles.  A quotient by zero is an infinity or
    NaN. *)
Definition sub (a b : Q) : option Q := round (a - b).
Definition div (a b : Q) : option Q :=
  if Qeq_bool b 0 then None else round (a / b).

(** The fractional part is discarded, towards zero. *)
Definition truncate (x : Q) : Z := Z.quot (Qnum x) (Zpos (Qden x)).

(** The conversions [(int)x] and [(unsigned int)x]: undefined when the
    truncated value is no value of the integer type. *)
Definition to_int (x : Q) : option Z :=
  let z := truncate x in
  if (- 2 ^ 31 <=? z)%Z && (z <? 2 ^ 31)%Z then Some z else None.
Definition to_unsigned (x : Q) : option Z :=
  let z := truncate x in
  if (0 <=? z)%Z && (z <? 2 ^ 32)%Z then Some z else None.

(** [std::ceil(x)]. *)
Definition ceil (x : Q) : Q := inject_Z (Qceiling x).

End Double.

(** [Eigen::VectorXd]. *)
Definition VectorXd := list Q.

(** Coefficient-wise sum of two vectors of one size; Eigen asserts that
    both sizes agree, which [accumulate] checks where the code adds vectors
    that it is given. *)
Definition vadd (a b : VectorXd) : VectorXd :=
  map (fun p => fst p + snd p) (combine a b).

(** [s * v]. *)
Definition vscale (s : Q) (v : VectorXd) : VectorXd := map (Qmult s) v.

(** [v / s]. *)
Definition vdiv (v : VectorXd) (s : Q) : VectorXd := map (fun x => x / s) v.

(** [VectorXd::Zero(n)]. *)
Definition vzero (n : nat) : VectorXd := repeat 0 n.

(** Two vectors that hold equal rationals, coefficient by coefficient. *)
Definition veq (a b : VectorXd) : Prop := Forall2 Qeq a b.

(** ** Dynamic matrices *)

(** [Eigen::MatrixXd]: the two dimensions and the coefficients in column-major
    order, which is Eigen's default storage. *)
Record MatrixXd := mkMatrix {
  rows : nat;
  cols : nat;
  data : list Q
}.

(** The storage matches the dimensions. *)
Definition wf_matrix (M : MatrixXd) : Prop :=
  length (data M) = (rows M * cols M)%nat.

(** [M(i, j)] for an index inside the matrix. *)
Definition coeff (M : MatrixXd) (i j : nat) : Q :=
  nth (i + j * rows M) (data M) 0.

(** The matrix with coefficient [f i j] at row [i], column [j]. *)
Definition mbuild (r c : nat) (f : nat -> nat -> Q) : MatrixXd :=
  mkMatrix r c (flat_map (fun j => map (fun i => f i j) (seq 0 r)) (seq 0 c)).

(** [MatrixXd::Zero(r, c)] and [MatrixXd::Identity(r, c)]. *)
Definition mzero (r c : nat) : MatrixXd := mbuild r c (fun _ _ => 0).
Definition midentity (r c : nat) : MatrixXd :=
  mbuild r c (fun i j => if Nat.eqb i j then 1 else 0).

(** Sum of [f k] for [k < n]. *)
Fixpoint qsum_upto (n : nat) (f : nat -> Q) : Q :=
  match n with
  | O => 0
  | S m => qsum_upto m f + f m
  end.

(** [A * B], [A + B] and [A.transpose()]. *)
Definition mmul (A B : MatrixXd) : MatrixXd :=
  mbuild (rows A) (cols B)
    (fun i j => qsum_upto (cols A) (fun k => coeff A i k * coeff B k j)).
Definition madd (A B : MatrixXd) : MatrixXd :=
  mbuild (rows A) (cols A) (fun i j => coeff A i j + coeff B i j).
Definition mtranspose (A : MatrixXd) : MatrixXd :=
  mbuild (cols A) (rows A) (fun i j => coeff A j i).

(** [M(i, j) = v]; Eigen asserts that the index is inside the matrix, so an
    index outside of it yields no matrix. *)
Definition set_coeff (M : MatrixXd) (i j : nat) (v : Q) : option MatrixXd :=
  if (i <? rows M)%nat && (j <? cols M)%nat then
    Some (mkMatrix (rows M) (cols M)
            (firstn (i + j * rows M) (data M) ++ v ::
             skipn (S (i + j * rows M)) (data M)))
  else None.

(** The coefficients of column [j]. *)
Definition column (M : MatrixXd) (j : nat) : VectorXd :=
  firstn (rows M) (skipn (j * rows M) (data M)).

(** [M.col(j)] for a signed index [j]; outside of the matrix the access is
    refused. *)
Definition col (M : MatrixXd) (j : Z) : option VectorXd :=
  if (0 <=? j)%Z && (j <? Z.of_nat (cols M))%Z then
    Some (column M (Z.to_nat j))
  else None.

(** [M.rightCols(1)]: the last column. *)
Definition rightCols1 (M : MatrixXd) : option VectorXd :=
  col M (Z.of_nat (cols M) - 1).


(** [A - B]. *)
Definition msub (A B : MatrixXd) : MatrixXd :=
  mbuild (rows A) (cols A) (fun i j => coeff A i j - coeff B i j).

(** The products, sums and differences that the code writes: Eigen asserts
    that the sizes of the operands fit, and there is no result when they do
    not. *)
Definition same_size (A B : MatrixXd) : bool :=
  Nat.eqb (rows A) (rows B) && Nat.eqb (cols A) (cols B).
Definition product (A B : MatrixXd) : option MatrixXd :=
  if Nat.eqb (cols A) (rows B) then Some (mmul A B) else None.
Definition sum (A B : MatrixXd) : option MatrixXd :=
  if same_size A B then Some (madd A B) else None.
Definition difference (A B : MatrixXd) : option MatrixXd :=
  if same_size A B then Some (msub A B) else None.

(** A [VectorXd] as a matrix of one column. *)
Definition column_vector (v : VectorXd) : MatrixXd :=
  mkMatrix (length v) 1 v.

(** [v.head(n)] of a column vector: its first [n] coefficients; Eigen asserts
    that the vector has that many. *)
Definition head (v : MatrixXd) (n : nat) : option VectorXd :=
  if (n <=? length (data v))%nat then Some (firstn n (data v)) else None.

(** [M.col(j) = v]; Eigen asserts that the column is inside the matrix and
    that [v] has as many coefficients as the matrix has rows. *)
Definition set_col (M : MatrixXd) (j : nat) (v : VectorXd) : option MatrixXd :=
  if (j <? cols M)%nat && Nat.eqb (length v) (rows M) then
    Some (mkMatrix (rows M) (cols M)
            (firstn (j * rows M) (data M) ++ v ++
             skipn (j * rows M + rows M) (data M)))
  else None.

(** ** The Kalman filter, [controller/kalman.cpp] *)

Module KalmanFilter.

(** [KalmanFilter::Configuration], with the fields that [create] and the
    constructor read. *)
Record Configuration := mkConfiguration {
  observed_states : nat;
  states : nat;
  state_transition_matrix : MatrixXd;
  transition_covariance : MatrixXd;
  observation_matrix : MatrixXd;
  observation_covariance : MatrixXd;
  initial_state : MatrixXd;
  initial_covariance : MatrixXd
}.

(** The members of a [KalmanFilter]. *)
Record t := mkFilter {
  m_observed_state_size : nat;
  m_estimated_state_size : nat;
  m_state_transition_matrix : MatrixXd;
  m_transition_covariance : MatrixXd;
  m_observation_matrix : MatrixXd;
  m_observation_covariance : MatrixXd;
  m_identity : MatrixXd;
  m_covariance : MatrixXd;
  m_state : MatrixXd;
  m_next_state : MatrixXd
}.

(** The lambda [check_dimensions] of [create], without its log line. *)
Definition check_dimensions (matrix : MatrixXd) (r c : nat) : bool :=
  Nat.eqb (rows matrix) r && Nat.eqb (cols matrix) c.

(** The constructor [KalmanFilter::KalmanFilter(const Configuration &)]. *)
Definition construct (config : Configuration) : t :=
  mkFilter
    (observed_states config)
    (states config)
    (state_transition_matrix config)
    (transition_covariance config)
    (observation_matrix config)
    (observation_covariance config)
    (midentity (states config) (states config))
    (initial_covariance config)
    (initial_state config)
    (mmul (state_transition_matrix config) (initial_state config)).

(** The conjunction of the six checks that [create] accumulates in [valid]
    with [&=]: every check runs, in the order of the source. *)
Definition valid (configuration : Configuration) : bool :=
  let v := check_dimensions (state_transition_matrix configuration)
             (states configuration) (states configuration) in
  let v := andb v (check_dimensions (transition_covariance configuration)
             (states configuration) (states configuration)) in
  let v := andb v (check_dimensions (observation_matrix configuration)
             (observed_states configuration) (states configuration)) in
  let v := andb v (check_dimensions (observation_covariance configuration)
             (observed_states configuration) (observed_states configuration)) in
  let v := andb v (check_dimensions (initial_state configuration)
             (states configuration) 1) in
  andb v (check_dimensions (initial_covariance configuration)
             (states configuration) (states configuration)).

(** [KalmanFilter::create]: [None] is the null pointer.  The source builds
    a first filter, overwrites two of its members and drops it; the filter
    it returns is a second, freshly constructed one. *)
Definition create (configuration : Configuration) : option t :=
  if negb (valid configuration) then None
  else
    let filter := construct configuration in
    let _dropped :=
      mkFilter (m_observed_state_size filter) (m_estimated_state_size filter)
        (m_state_transition_matrix filter) (m_transition_covariance filter)
        (m_observation_matrix filter) (m_observation_covariance filter)
        (m_identity filter) (m_covariance filter)
        (initial_state configuration)
        (mmul (state_transition_matrix configuration) (m_next_state filter)) in
    Some (construct configuration).

(** [KalmanFilter::predict(bool update_covariance)]. *)
Definition predict (update_covariance : bool) (f : t) : t :=
  let state := m_next_state f in
  let next_state := mmul (m_state_transition_matrix f) state in
  let covariance :=
    if update_covariance then
      madd (mmul (mmul (m_state_transition_matrix f) (m_covariance f))
                 (mtranspose (m_state_transition_matrix f)))
           (m_transition_covariance f)
    else m_covariance f in
  mkFilter (m_observed_state_size f) (m_estimated_state_size f)
    (m_state_transition_matrix f) (m_transition_covariance f)
    (m_observation_matrix f) (m_observation_covariance f)
    (m_identity f) covariance state next_state.

(** The shape that [create] expects of each configuration matrix. *)
Definition has_shape (M : MatrixXd) (r c : nat) : Prop :=
  rows M = r /\ cols M = c.

(** Every configuration matrix has the shape that [create] expects. *)
Definition shapes_correct (c : Configuration) : Prop :=
  has_shape (state_transition_matrix c) (states c) (states c) /\
  has_shape (transition_covariance c) (states c) (states c) /\
  has_shape (observation_matrix c) (observed_states c) (states c) /\
  has_shape (observation_covariance c) (observed_states c) (observed_states c) /\
  has_shape (initial_state c) (states c) 1 /\
  has_shape (initial_covariance c) (states c) (states c).

(** At least one configuration matrix has a wrong shape. *)
Definition some_shape_wrong (c : Configuration) : Prop :=
  ~ has_shape (state_transition_matrix c) (states c) (states c) \/
  ~ has_shape (transition_covariance c) (states c) (states c) \/
  ~ has_shape (observation_matrix c) (observed_states c) (states c) \/
  ~ has_shape (observation_covariance c) (observed_states c) (observed_states c) \/
  ~ has_shape (initial_state c) (states c) 1 \/
  ~ has_shape (initial_covariance c) (states c) (states c).

Section Correction.

(** [MatrixXd::inverse()], which Eigen computes.  [None] when the matrix is
    singular: the coefficients that Eigen then returns are infinities or
    NaN, and so are those of the gain and of the estimate. *)
Variable inverse : MatrixXd -> option MatrixXd.

(** [KalmanFilter::update(VectorXd &observation)].  [None] when the call
    leaves no filter of finite numbers: an assertion fails (the sizes of a
    product, a sum or a difference do not fit, or the gain holds NaN), or
    the inverse, and with it the gain and the estimate, is not finite. *)
Definition update (f : t) (observation : VectorXd) : option t :=
  let* projected :=
    product (m_covariance f) (mtranspose (m_observation_matrix f)) in
  let* innovation_covariance :=
    product (m_observation_matrix f) (m_covariance f) in
  let* innovation_covariance :=
    product innovation_covariance (mtranspose (m_observation_matrix f)) in
  let* innovation_covariance :=
    sum innovation_covariance (m_observation_covariance f) in
  let* inverted := inverse innovation_covariance in
  let* optimal_kalman_gain := product projected inverted in
  let* expected := product (m_observation_matrix f) (m_next_state f) in
  let* innovation := difference (column_vector observation) expected in
  let* correction := product optimal_kalman_gain innovation in
  let* state := sum (m_next_state f) correction in
  let* gained := product optimal_kalman_gain (m_observation_matrix f) in
  let* remaining := difference (m_identity f) gained in
  let* covariance := product remaining (m_covariance f) in
  let* next_state := product (m_state_transition_matrix f) state in
  let* covariance := product (m_state_transition_matrix f) covariance in
  let* covariance :=
    product covariance (mtranspose (m_state_transition_matrix f)) in
  let* covariance := sum covariance (m_transition_covariance f) in
  Some (mkFilter (m_observed_state_size f) (m_estimated_state_size f)
          (m_state_transition_matrix f) (m_transition_covariance f)
          (m_observation_matrix f) (m_observation_covariance f)
          (m_identity f) covariance state next_state).

(** The filters that one created from [c] becomes through predictions and
    observations. *)
Inductive reachable (c : Configuration) : t -> Prop :=
| reach_create f : create c = Some f -> reachable c f
| reach_predict f update_covariance :
    reachable c f -> reachable c (predict update_covariance f)
| reach_update f observation f' :
    reachable c f -> update f observation = Some f' -> reachable c f'.

End Correction.

(** The filter still holds the matrices of the configuration [c], its
    estimate, next estimate and covariance have the shapes of [states c]
    states, and the next estimate is the transition of the estimate. *)
Definition consistent (c : Configuration) (f : t) : Prop :=
  m_observed_state_size f = observed_states c /\
  m_estimated_state_size f = states c /\
  m_state_transition_matrix f = state_transition_matrix c /\
  m_transition_covariance f = transition_covariance c /\
  m_observation_matrix f = observation_matrix c /\
  m_observation_covariance f = observation_covariance c /\
  has_shape (m_covariance f) (states c) (states c) /\
  has_shape (m_state f) (states c) 1 /\
  has_shape (m_next_state f) (states c) 1 /\
  m_next_state f = mmul (m_state_transition_matrix f) (m_state f).

End KalmanFilter.

(** ** Results of factory functions *)

(** What a factory returns: an object, the null pointer, or nothing that C++
    defines (a failed Eigen assertion, the dereference of an empty
    [std::optional], a division by zero). *)
Inductive outcome (A : Type) : Type :=
| Returned (a : A)
| NullPtr
| Undefined.
Arguments Returned {A} a.
Arguments NullPtr {A}.
Arguments Undefined {A}.

(** A counted [for] loop whose body may fail. *)
Definition for_loop {S : Type} (n : nat) (body : nat -> S -> option S) (s : S)
  : option S :=
  fold_left
    (fun acc i => match acc with Some s' => body i s' | None => None end)
    (seq 0 n) (Some s).

(** ** The Kalman forecaster, [controller/forecast.cpp] *)

Module KalmanForecast.

(** [KalmanForecast::Configuration]. *)
Record Configuration := mkConfiguration {
  observed_states : nat;
  order : nat;
  time_step : Q;
  horison : Q;
  initial_state : VectorXd
}.

(** The members of a [KalmanForecast] (the mutex is left out). *)
Record t := mkForecast {
  m_observed_states : nat;
  m_estaimted_states : nat;
  m_horison : Q;
  m_time_step : Q;
  m_steps : nat;
  m_last_update : Q;
  m_measurement : MatrixXd;
  m_filter : KalmanFilter.t;
  m_predictor : KalmanFilter.t;
  m_prediction : MatrixXd
}.

(** An [unsigned int] after an arithmetic operation. *)
Definition u32 (z : Z) : Z := (z mod 2 ^ 32)%Z.

(** [KalmanForecast::factorial], on [unsigned int]. *)
Fixpoint factorial (n : nat) : Z :=
  match n with
  | O => 1%Z
  | S m =>
    match m with
    | O => 1%Z
    | S _ => u32 (Z.of_nat n * factorial m)
    end
  end.

(** The right-hand side [1 / factorial(i) * std::pow(time_step, i)]: the
    quotient is taken on [unsigned int] operands before the product with the
    [double] power.  From [i = 34] on [factorial(i)] has wrapped to zero, and
    C++ gives a quotient by zero no meaning: the embedding follows the
    function no further than that ([None]), and says nothing of what a
    compiled program does then. *)
Definition transition_coefficient (time_step : Q) (i : nat) : option Q :=
  if (factorial i =? 0)%Z then None
  else Some (inject_Z (1 / factorial i) * time_step ^ Z.of_nat i).

(** [KalmanForecast::create_euler_state_transition_matrix]. *)
Definition create_euler_state_transition_matrix
  (time_step : Q) (observed_states order : nat) : option MatrixXd :=
  let states := (observed_states * (order + 1))%nat in
  for_loop (S order) (fun derivative matrix =>
    for_loop observed_states (fun state matrix =>
      let row := (derivative * order + state)%nat in
      for_loop (S (order - derivative)) (fun i matrix =>
        let col :=
          (derivative * observed_states + i * observed_states + state)%nat in
        match transition_coefficient time_step i with
        | Some c => set_coeff matrix row col c
        | None => None
        end) matrix) matrix)
    (mzero states states).

(** The literal [1e-8]. *)
Definition tiny : Q := 1 # 100000000.

(** [KalmanForecast::create_euler_state_transition_covariance_matrix]. *)
Definition create_euler_state_transition_covariance_matrix
  (time_step : Q) (observed_states order : nat) : MatrixXd :=
  let states := (observed_states * (order + 1))%nat in
  mbuild states states (fun i j => if Nat.eqb i j then 1 * tiny else 0 * tiny).

(** The constructor.  [m_prediction] is allocated and not written: its
    coefficients are whatever [uninitialised] holds.  The number of its
    columns, [steps + 1], is taken on [unsigned int]. *)
Definition construct (horison time_step : Q) (steps : nat) (last_update : Q)
  (filter predictor : KalmanFilter.t) (uninitialised : list Q) : t :=
  mkForecast
    (KalmanFilter.m_observed_state_size filter)
    (KalmanFilter.m_estimated_state_size filter)
    horison time_step steps last_update
    (mzero (KalmanFilter.m_estimated_state_size filter) 1)
    filter predictor
    (mkMatrix (KalmanFilter.m_observed_state_size filter)
       (Z.to_nat (u32 (Z.of_nat steps + 1))) uninitialised).

(** [unsigned int steps = std::ceil(horison / time_step)]: the quotient is
    a [double], and the conversion of its ceiling is undefined outside of
    [unsigned int]. *)
Definition steps_of (horison time_step : Q) : option nat :=
  let* quotient := Double.div horison time_step in
  let* steps := Double.to_unsigned (Double.ceil quotient) in
  Some (Z.to_nat steps).

(** [KalmanForecast::create].  [Undefined] when an Eigen assertion fails,
    when the transition matrix is not defined or when [steps] is not. *)
Definition create (uninitialised : list Q) (configuration : Configuration)
  : outcome t :=
  let states :=
    (observed_states configuration * (order configuration + 1))%nat in
  let observation_matrix :=
    mbuild (observed_states configuration) states
      (fun i j => if Nat.eqb i j then 1 else 0) in
  let observation_covariance_matrix :=
    mbuild (observed_states configuration) (observed_states configuration)
      (fun i j => if Nat.eqb i j then 1 * tiny else 0 * tiny) in
  if negb (Nat.eqb (length (initial_state configuration))
             (observed_states configuration)) then Undefined
  else
    let initial :=
      mkMatrix states 1
        (initial_state configuration ++
         vzero (states - observed_states configuration)) in
    match create_euler_state_transition_matrix (time_step configuration)
            (observed_states configuration) (order configuration) with
    | None => Undefined
    | Some transition =>
      let kalman_configuration :=
        KalmanFilter.mkConfiguration
          (observed_states configuration) states transition
          (create_euler_state_transition_covariance_matrix
             (time_step configuration) (observed_states configuration)
             (order configuration))
          observation_matrix observation_covariance_matrix initial
          (mbuild states states
             (fun i j => if Nat.eqb i j then 1 * tiny else 0 * tiny)) in
      match KalmanFilter.create kalman_configuration,
            KalmanFilter.create kalman_configuration with
      | Some filter, Some predictor =>
        match steps_of (horison configuration) (time_step configuration) with
        | Some steps =>
          Returned (construct (horison configuration)
                      (time_step configuration) steps 0 filter predictor
                      uninitialised)
        | None => Undefined
        end
      | _, _ => NullPtr
      end
    end.

(** [KalmanForecast::update(double time)].  The call [m_filter->predict()]
    passes no argument; the default of [update_covariance] is declared in a
    header that is not part of the sources at hand, so it is an argument
    here. *)
Definition update_time (predict_default : bool) (k : t) (time : Q) : t :=
  mkForecast (m_observed_states k) (m_estaimted_states k) (m_horison k)
    (m_time_step k) (m_steps k) (m_last_update k) (m_measurement k)
    (KalmanFilter.predict predict_default (m_filter k))
    (m_predictor k) (m_prediction k).

(** [KalmanForecast::forecast].  [None] stands for a call that returns no
    vector: the failed [assert] (when [ndebug] is [false], the assertions
    being compiled in), a number of steps [t] that is no finite number or no
    [int], or a column index outside of [m_prediction].  The difference
    [t - lower] of a [double] and its integer part is exact. *)
Definition forecast (ndebug : bool) (k : t) (time : Q) : option VectorXd :=
  if negb ndebug && Qltb time (m_last_update k) then None
  else if Qltb (m_horison k) time then rightCols1 (m_prediction k)
  else
    let* elapsed := Double.sub time (m_last_update k) in
    let* t := Double.div elapsed (m_time_step k) in
    let* lower := Double.to_int t in
    let upper := (lower + 1)%Z in
    let t := t - inject_Z lower in
    match col (m_prediction k) lower, col (m_prediction k) upper with
    | Some a, Some b => Some (vadd (vscale (1 - t) a) (vscale t b))
    | _, _ => None
    end.

(** The coefficient that the Taylor rule puts at row [r], column [c] of the
    transition matrix of [d] observed coordinates and order [n]: the row of
    derivative [k] of coordinate [j] is [k * d + j], and it holds
    [dt ^ i / i!] in the column of derivative [k + i] of the same coordinate. *)
Definition taylor_entry (dt : Q) (d n r c : nat) : Q :=
  let k := (r / d)%nat in
  let j := (r mod d)%nat in
  let k' := (c / d)%nat in
  let j' := (c mod d)%nat in
  if Nat.eqb j j' && (k <=? k')%nat && (k' <=? n)%nat then
    dt ^ Z.of_nat (k' - k) / inject_Z (Z.of_nat (fact (k' - k)))
  else 0.

Section Observation.

(** [MatrixXd::inverse()], which Eigen computes, and the accessors of the
    filter, which are declared in a header that is not part of the sources
    at hand. *)
Variable inverse : MatrixXd -> option MatrixXd.
Variable get_estimation : KalmanFilter.t -> MatrixXd.
Variable get_covariance : KalmanFilter.t -> MatrixXd.
Variable set_estimation : KalmanFilter.t -> MatrixXd -> KalmanFilter.t.
Variable set_covariance : KalmanFilter.t -> MatrixXd -> KalmanFilter.t.

(** The default of the argument of [predict], as in [update_time]. *)
Variable predict_default : bool.

(** The predictor as [update] prepares it from the corrected filter. *)
Definition prepared_predictor (k : t) (filter : KalmanFilter.t)
  : KalmanFilter.t :=
  set_covariance (set_estimation (m_predictor k) (get_estimation filter))
    (get_covariance filter).

(** One turn of the loop of [update]: a prediction, recorded in column
    [i + 1]. *)
Definition record_prediction (observed : nat) (i : nat)
  (s : KalmanFilter.t * MatrixXd) : option (KalmanFilter.t * MatrixXd) :=
  let predictor := KalmanFilter.predict predict_default (fst s) in
  match head (get_estimation predictor) observed with
  | None => None
  | Some estimate =>
    match set_col (snd s) (i + 1) estimate with
    | None => None
    | Some prediction => Some (predictor, prediction)
    end
  end.

(** [KalmanForecast::update(VectorXd measurement, double time)]; [None]
    when an assertion fails. *)
Definition update (k : t) (measurement : VectorXd) (time : Q) : option t :=
  let* filter := KalmanFilter.update inverse (m_filter k) measurement in
  let predictor := prepared_predictor k filter in
  match head (get_estimation predictor) (m_observed_states k) with
  | None => None
  | Some estimate =>
    match set_col (m_prediction k) 0 estimate with
    | None => None
    | Some prediction =>
      match for_loop (m_steps k) (record_prediction (m_observed_states k))
              (predictor, prediction) with
      | None => None
      | Some (predictor, prediction) =>
        Some (mkForecast (m_observed_states k) (m_estaimted_states k)
                (m_horison k) (m_time_step k) (m_steps k) time
                (m_measurement k) filter predictor prediction)
      end
    end
  end.

End Observation.

End KalmanForecast.

(** ** The moving-average forecaster, [controller/forecast.cpp] *)

Module AverageForecast.

(** [AverageForecast::Configuration]. *)
Record Configuration := mkConfiguration {
  window : Q;
  states : nat
}.

(** The members of an [AverageForecast] (the mutex is left out).  The buffer
    holds pairs of a timestamp and a measurement, oldest first. *)
Record t := mkForecast {
  m_window : Q;
  m_buffer : list (Q * VectorXd);
  m_average : VectorXd
}.

(** [std::numeric_limits<double>::min()]: the smallest positive normal
    [double], [2^-1022]. *)
Definition DBL_MIN : Q := 1 # (2 ^ 1022).

(** The constructor. *)
Definition construct (window : Q) (states : nat) : t :=
  mkForecast window [(DBL_MIN, vzero states)] (vzero states).

(** [AverageForecast::create]. *)
Definition create (configuration : Configuration) : option t :=
  if Qltb (window configuration) 0 then None
  else Some (construct (window configuration) (states configuration)).

(** [std::upper_bound] with the comparison [time < element.first]: the
    position of the first element for which the comparison holds, the length
    of the buffer when there is none. *)
Fixpoint upper_bound (buffer : list (Q * VectorXd)) (time : Q) : nat :=
  match buffer with
  | [] => O
  | element :: rest =>
    if Qltb time (fst element) then O else S (upper_bound rest time)
  end.

(** [AverageForecast::clear_old_measurements].  On an empty buffer the
    decrement of [it] is undefined.  The cutoff [time - m_window] is the
    exact difference; the code compares with that difference rounded to a
    [double], at most half a unit in the last place away. *)
Definition clear_old_measurements (f : t) (time : Q) : option t :=
  match m_buffer f with
  | [] => None
  | _ :: _ =>
    let it := upper_bound (m_buffer f) (time - m_window f) in
    let it := if Nat.eqb it (length (m_buffer f)) then (it - 1)%nat else it in
    Some (mkForecast (m_window f) (skipn it (m_buffer f)) (m_average f))
  end.

(** One turn of the loop of [update_average], [total += m_buffer[i].second]:
    Eigen asserts that both vectors have one size, and there is no total
    when they do not. *)
Definition accumulate (total : option VectorXd) (element : Q * VectorXd)
  : option VectorXd :=
  let* total := total in
  if Nat.eqb (length total) (length (snd element))
  then Some (vadd total (snd element)) else None.

(** [AverageForecast::update_average].  On an empty buffer [m_buffer[0]] is
    undefined. *)
Definition update_average (f : t) : option t :=
  match m_buffer f with
  | [] => None
  | first :: rest =>
    let* total := fold_left accumulate rest (Some (snd first)) in
    Some (mkForecast (m_window f) (m_buffer f)
            (vdiv total (inject_Z (Z.of_nat (length (m_buffer f))))))
  end.

(** Sequencing of two steps that may be undefined. *)
Definition and_then (a : option t) (k : t -> option t) : option t :=
  match a with
  | Some f => k f
  | None => None
  end.

(** [AverageForecast::update(double time)]. *)
Definition update_time (f : t) (time : Q) : option t :=
  and_then (clear_old_measurements f time) update_average.

(** [AverageForecast::update(VectorXd measurement, double time)].  On an
    empty buffer [m_buffer.back()] is undefined. *)
Definition update (f : t) (measurement : VectorXd) (time : Q) : option t :=
  match rev (m_buffer f) with
  | [] => None
  | back :: _ =>
    if Qltb time (fst back) then Some f
    else
      let f' :=
        mkForecast (m_window f) (m_buffer f ++ [(time, measurement)])
          (m_average f) in
      and_then (clear_old_measurements f' time) update_average
  end.

(** [AverageForecast::forecast]. *)
Definition forecast (f : t) (time : Q) : VectorXd := m_average f.

(** *** What the forecaster is meant to keep and to return *)

(** The elements of [buffer] that are newer than [cutoff], together with the
    most recent element (the last one), in their order. *)
Definition retained (cutoff : Q) (buffer : list (Q * VectorXd))
  : list (Q * VectorXd) :=
  map snd
    (filter
       (fun p => Qltb cutoff (fst (snd p)) ||
                 Nat.eqb (S (fst p)) (length buffer))
       (combine (seq 0 (length buffer)) buffer)).

(** Sum of a list of rationals. *)
Definition qsum (l : list Q) : Q := fold_right Qplus 0 l.

(** The arithmetic mean of vectors of dimension [n], coordinate by
    coordinate. *)
Definition arithmetic_mean (n : nat) (vs : list VectorXd) : VectorXd :=
  map (fun j => qsum (map (fun v => nth j v 0) vs) /
                inject_Z (Z.of_nat (length vs)))
      (seq 0 n).

(** The timestamps never decrease along the buffer. *)
Fixpoint sorted (buffer : list (Q * VectorXd)) : Prop :=
  match buffer with
  | [] => True
  | e :: rest => Forall (fun e' => fst e <= fst e') rest /\ sorted rest
  end.

(** The states that a forecaster created from [c] goes through, when every
    measurement it is given has [states c] coefficients. *)
Inductive reachable (c : Configuration) : t -> Prop :=
| reach_create f :
    create c = Some f -> reachable c f
| reach_update_time f time f' :
    reachable c f -> update_time f time = Some f' -> reachable c f'
| reach_update f measurement time f' :
    reachable c f -> length measurement = states c ->
    update f measurement time = Some f' -> reachable c f'.

(** The buffer after a call: nonempty, sorted, spanning less than the window
    unless it has a single element, of vectors of one dimension, and averaged
    by [m_average]. *)
Record invariant (c : Configuration) (f : t) : Prop := mkInvariant {
  inv_window : m_window f = window c;
  inv_nonempty : m_buffer f <> [];
  inv_sorted : sorted (m_buffer f);
  inv_span :
    length (m_buffer f) = 1%nat \/
    Forall (fun e => fst (last (m_buffer f) (0, [])) - window c < fst e)
           (m_buffer f);
  inv_dimension : Forall (fun e => length (snd e) = states c) (m_buffer f);
  inv_average :
    veq (m_average f) (arithmetic_mean (states c) (map snd (m_buffer f)))
}.

End AverageForecast.

(** ** The forecaster factory, [controller/forecast.cpp] *)

Module Forecast.

Section Factory.

(** The locally-constant forecaster is defined outside of the sources at
    hand; its configuration, its objects and its factory are taken as
    given. *)
Variable LOCFConfiguration : Type.
Variable LOCFForecast : Type.
Variable LOCFForecast_create : LOCFConfiguration -> option LOCFForecast.

(** [Forecast::Configuration::Type]. *)
Inductive Type_ := LOCF | AVERAGE | KALMAN.

(** [Forecast::Configuration]: the selected type and one optional
    configuration per forecaster. *)
Record Configuration := mkConfiguration {
  type : Type_;
  locf : option LOCFConfiguration;
  average : option AverageForecast.Configuration;
  kalman : option KalmanForecast.Configuration
}.

(** A forecaster behind the [Forecast] interface. *)
Inductive t :=
| OfLOCF (f : LOCFForecast)
| OfAverage (f : AverageForecast.t)
| OfKalman (f : KalmanForecast.t).

(** A factory result as a [Forecast] pointer. *)
Definition upcast {A : Type} (inj : A -> t) (r : option A) : outcome t :=
  match r with
  | Some f => Returned (inj f)
  | None => NullPtr
  end.

(** [Forecast::create].  [*configuration.average] on an empty optional is
    undefined.  The three enumerators are the three branches; the final
    [return nullptr] of the source is for a value that is none of them. *)
Definition create (uninitialised : list Q) (configuration : Configuration)
  : outcome t :=
  match type configuration with
  | LOCF =>
    match locf configuration with
    | None => NullPtr
    | Some c => upcast OfLOCF (LOCFForecast_create c)
    end
  | AVERAGE =>
    match locf configuration with
    | None => NullPtr
    | Some _ =>
      match average configuration with
      | None => Undefined
      | Some c => upcast OfAverage (AverageForecast.create c)
      end
    end
  | KALMAN =>
    match kalman configuration with
    | None => NullPtr
    | Some c =>
      match KalmanForecast.create uninitialised c with
      | Returned f => Returned (OfKalman f)
      | NullPtr => NullPtr
      | Undefined => Undefined
      end
    end
  end.

End Factory.

End Forecast.

(** ** The assisted manipulation objective,
       [frankaridgeback/objective/assisted_manipulation.cpp] *)

Module AssistedManipulation.

(** [QuadraticCost]: a limit, the constant cost of passing it and the factor
    of the quadratic cost of the excess. *)
Record QuadraticCost := mkQuadraticCost {
  limit : Q;
  constant_cost : Q;
  quadratic_cost : Q
}.

(** [AssistedManipulation::Configuration]. *)
Record Configuration := mkConfiguration {
  enable_joint_limit : bool;
  enable_reach_limit : bool;
  enable_maximise_manipulability : bool;
  enable_minimise_power : bool;
  enable_variable_damping : bool;
  lower_joint_limit : list QuadraticCost;
  upper_joint_limit : list QuadraticCost;
  maximum_reach : QuadraticCost;
  minimum_reach : QuadraticCost;
  minimum_manipulability : QuadraticCost;
  maximum_power : QuadraticCost;
  variable_damping_maximum : Q;
  variable_damping_dropoff : Q
}.

(** The members of an [AssistedManipulation] that [get_cost] reads and
    writes.  The manipulability cost, and with it the total, can be NaN:
    they are a number or [None].  [m_space_jacobian], which
    [manipulability_cost] writes and nothing reads back, is left out. *)
Record t := mkObjective {
  m_configuration : Configuration;
  m_cost : option Q;
  m_power_cost : Q;
  m_manipulability_cost : option Q;
  m_joint_cost : Q;
  m_reach_cost : Q;
  m_variable_damping_cost : Q
}.

(** The constructor sets every cost member to zero but
    [m_variable_damping_cost], which keeps the value [uninitialised] that its
    storage held. *)
Definition construct (configuration : Configuration) (uninitialised : Q) : t :=
  mkObjective configuration (Some 0) 0 (Some 0) 0 0 uninitialised.

(** The configuration with [enable_reach_limit] set to [b]. *)
Definition with_reach_limit (b : bool) (c : Configuration) : Configuration :=
  mkConfiguration (enable_joint_limit c) b (enable_maximise_manipulability c)
    (enable_minimise_power c) (enable_variable_damping c)
    (lower_joint_limit c) (upper_joint_limit c) (maximum_reach c)
    (minimum_reach c) (minimum_manipulability c) (maximum_power c)
    (variable_damping_maximum c) (variable_damping_dropoff c).

Section Objective.

(** The dynamics object and what the objective reads from it are defined by
    the rigid-body library: the power, the jacobian of the end effector
    ([get_end_effector_state().jacobian]) and the norm of the offset from
    the base link frame to the grasp frame. *)
Variable Dynamics : Type.
Variable get_power : Dynamics -> Q.
Variable jacobian : Dynamics -> MatrixXd.
Variable reach_offset : Dynamics -> Q.

(** [MatrixXd::determinant()], as Eigen computes it in [double]: of a
    singular [J * J^T] it can come out below zero.  And [std::sqrt] of a
    number that is not negative. *)
Variable determinant : MatrixXd -> Q.
Variable sqrt : Q -> Q.

(** [FrankaRidgeback::DoF::JOINTS] and [state.position()(i)]. *)
Variable JOINTS : nat.
Variable position : VectorXd -> nat -> Q.

(** [std::max(0.0, x)]. *)
Definition max0 (x : Q) : Q := if Qltb 0 x then x else 0.

(** [AssistedManipulation::power_cost]. *)
Definition power_cost (f : t) (dynamics : Dynamics) : Q :=
  let maximum := maximum_power (m_configuration f) in
  let power := get_power dynamics in
  if Qltb power (limit maximum) then 0
  else constant_cost maximum +
       max0 (quadratic_cost maximum * (power - limit maximum)).

(** The literal [1e-10]. *)
Definition clip : Q := 1 # 10000000000.

(** [AssistedManipulation::manipulability_cost].  The square root of a
    negative determinant is NaN; the comparison [NaN < 1e-10] is false, so
    the volume is not clipped, and the cost is NaN ([None]). *)
Definition manipulability_cost (f : t) (dynamics : Dynamics) : option Q :=
  let minimum := minimum_manipulability (m_configuration f) in
  let jacobian := jacobian dynamics in
  let space_jacobian := mmul jacobian (mtranspose jacobian) in
  let det := determinant space_jacobian in
  if Qltb det 0 then None
  else
    let ellipsoid_volume := sqrt det in
    let ellipsoid_volume :=
      if Qltb ellipsoid_volume clip then clip else ellipsoid_volume in
    Some (quadratic_cost minimum * (1 / ellipsoid_volume) ^ 2).

(** An entry of a [std::array] of [QuadraticCost]. *)
Definition entry (a : list QuadraticCost) (i : nat) : QuadraticCost :=
  nth i a (mkQuadraticCost 0 0 0).

(** [AssistedManipulation::joint_limit_cost]; the cost above the upper limit
    takes its quadratic factor from the lower limit, as the source does. *)
Definition joint_limit_cost (f : t) (state : VectorXd) : Q :=
  fold_left
    (fun cost i =>
       let lower := entry (lower_joint_limit (m_configuration f)) i in
       let upper := entry (upper_joint_limit (m_configuration f)) i in
       let p := position state i in
       if Qltb p (limit lower) then
         cost + (constant_cost lower +
                 quadratic_cost lower * (limit lower - p) ^ 2)
       else if Qltb (limit upper) p then
         cost + (constant_cost upper +
                 quadratic_cost lower * (p - limit upper) ^ 2)
       else cost)
    (seq 0 JOINTS) 0.

(** [AssistedManipulation::reach_cost]: the penalty is summed into the local
    [cost]; the value returned is the literal [0.0]. *)
Definition reach_cost (f : t) (dynamics : Dynamics) : Q :=
  let cost := 0 in
  let min := minimum_reach (m_configuration f) in
  let max := maximum_reach (m_configuration f) in
  let offset := reach_offset dynamics in
  let cost :=
    if Qltb offset (limit min) then
      cost + (constant_cost min +
              quadratic_cost min * (offset - limit min) ^ 2)
    else if Qltb (limit max) offset then
      cost + (constant_cost max +
              quadratic_cost max * (offset - limit max) ^ 2)
    else cost in
  0.

(** [AssistedManipulation::variable_damping_cost]. *)
Definition variable_damping_cost (f : t) (state : VectorXd) : Q := 0.

(** [AssistedManipulation::get_cost]: the cost returned and the objective
    after the call.  A sum with NaN is NaN. *)
Definition get_cost (f : t) (s c : VectorXd) (d : Dynamics) (time : Q)
  : option Q * t :=
  let power :=
    if enable_minimise_power (m_configuration f)
    then power_cost f d else m_power_cost f in
  let manipulability :=
    if enable_maximise_manipulability (m_configuration f)
    then manipulability_cost f d else m_manipulability_cost f in
  let joint :=
    if enable_joint_limit (m_configuration f)
    then joint_limit_cost f s else m_joint_cost f in
  let reach :=
    if enable_reach_limit (m_configuration f)
    then reach_cost f d else m_reach_cost f in
  let damping :=
    if enable_variable_damping (m_configuration f)
    then variable_damping_cost f s else m_variable_damping_cost f in
  let cost :=
    let* manipulability := manipulability in
    Some (power + manipulability + joint + reach) in
  (cost, mkObjective (m_configuration f) cost power manipulability joint reach
           damping).

(** One call of [get_cost]: state, control, dynamics and time. *)
Definition call : Type := (VectorXd * VectorXd * Dynamics * Q)%type.

(** The costs returned by successive calls of [get_cost] on one objective. *)
Fixpoint run (f : t) (calls : list call) : list (option Q) :=
  match calls with
  | [] => []
  | (s, c, d, time) :: rest =>
    let (cost, f') := get_cost f s c d time in
    cost :: run f' rest
  end.

End Objective.

(** Two objectives that agree on everything but the flag
    [enable_reach_limit], and whose stored reach cost is zero. *)
Definition agree_up_to_reach_flag (f1 f2 : t) : Prop :=
  with_reach_limit false
    (m_configuration f1) =
  with_reach_limit false
    (m_configuration f2) /\
  m_power_cost f1 = m_power_cost f2 /\
  m_manipulability_cost f1 =
    m_manipulability_cost f2 /\
  m_joint_cost f1 = m_joint_cost f2 /\
  m_reach_cost f1 = 0 /\
  m_reach_cost f2 = 0.

(** The constant and the quadratic factor of a cost are not negative. *)
Definition nonnegative (q : QuadraticCost) : Prop :=
  0 <= constant_cost q /\ 0 <= quadratic_cost q.

(** No cost of the configuration has a negative constant or factor. *)
Definition nonnegative_costs (c : Configuration) : Prop :=
  nonnegative (maximum_power c) /\
  nonnegative (minimum_manipulability c) /\
  Forall nonnegative (lower_joint_limit c) /\
  Forall nonnegative (upper_joint_limit c).

End AssistedManipulation.

(** ** The point tracking objective, [frankaridgeback/objective/track_point.cpp] *)

Module TrackPoint.

Local Open Scope R_scope.

(** The joint limits that [get_cost] writes into [lower_limit] and
    [upper_limit]. *)
Definition lower_limit : list R :=
  [-2; -2; -628 / 100;
   -28973 / 10000; -17628 / 10000; -28973 / 10000; -30718 / 10000;
   -28973 / 10000; -175 / 10000; -28973 / 10000;
   5 / 10; 5 / 10].
Definition upper_limit : list R :=
  [2; 2; 628 / 100;
   28973 / 10000; 17628 / 10000; 28973 / 10000; 698 / 10000;
   28973 / 10000; 37525 / 10000; 28973 / 10000;
   5 / 10; 5 / 10].

(** [v.norm()] of a vector of three coefficients. *)
Definition norm (v : R * R * R) : R :=
  let '(x, y, z) := v in sqrt (x * x + y * y + z * z).

(** One turn of the loop over the first ten coordinates of the state. *)
Definition joint_penalty (state : list R) (cost : R) (i : nat) : R :=
  let cost :=
    if Rlt_dec (nth i state 0) (nth i lower_limit 0) then
      cost + (1000 + 100000 * (nth i lower_limit 0 - nth i state 0) ^ 2)
    else cost in
  if Rlt_dec (nth i upper_limit 0) (nth i state 0) then
    cost + (1000 + 100000 * (nth i state 0 - nth i upper_limit 0) ^ 2)
  else cost.

(** [TrackPoint::get_cost], for the end effector position that the dynamics
    report and the state. *)
Definition get_cost (position : R * R * R) (state : list R) : R :=
  let '(x, y, z) := position in
  let cost := 100 * norm (x - 1, y - 1, z - 1) ^ 2 in
  fold_left (joint_penalty state) (seq 0 10) cost.

(** The squared distance from the position to the target (1, 1, 1). *)
Definition squared_distance (position : R * R * R) : R :=
  let '(x, y, z) := position in
  (x - 1) * (x - 1) + (y - 1) * (y - 1) + (z - 1) * (z - 1).

End TrackPoint.

(** ** The Gaussian sampler, [controller/mppi.hpp] *)

Module Gaussian.

Local Open Scope R_scope.

(** Vectors and matrices of reals; a matrix is the list of its rows. *)
Definition Vector := list R.
Definition Matrix := list (list R).

(** [M(i, k)] and [v(k)]. *)
Definition at_ (v : Vector) (k : nat) : R := nth k v 0.
Definition entry (M : Matrix) (i k : nat) : R := at_ (nth i M []) k.

(** Sum of a list of reals. *)
Definition rsum (l : list R) : R := fold_right Rplus 0 l.

(** Coefficient-wise product and sum of two vectors, scalar product, and the
    product of a matrix with a vector. *)
Definition vmul (a b : Vector) : Vector :=
  map (fun p => fst p * snd p) (combine a b).
Definition vplus (a b : Vector) : Vector :=
  map (fun p => fst p + snd p) (combine a b).
Definition dot (a b : Vector) : R := rsum (vmul a b).
Definition mat_vec (M : Matrix) (v : Vector) : Vector :=
  map (fun row => dot row v) M.

(** [V * s.asDiagonal()]: column [k] of [V] scaled by [s(k)]. *)
Definition times_diagonal (V : Matrix) (s : Vector) : Matrix :=
  map (fun row => vmul row s) V.

(** The members of a [Gaussian]. *)
Record t := mkGaussian {
  m_mean : Vector;
  m_transform : Matrix
}.

Section Sampler.

(** The state of [std::mt19937] and one call [s_distribution(s_generator)]
    of the standard normal distribution on it. *)
Variable Generator : Type.
Variable s_distribution : Generator -> R * Generator.

(** [Eigen::SelfAdjointEigenSolver]: the eigenvectors, as the columns of a
    matrix, and the eigenvalues of a matrix. *)
Variable eigenvectors : Matrix -> Matrix.
Variable eigenvalues : Matrix -> Vector.

(** [Gaussian::set_covariance]. *)
Definition set_covariance (g : t) (covariance : Matrix) : t :=
  mkGaussian (m_mean g)
    (times_diagonal (eigenvectors covariance)
       (map sqrt (eigenvalues covariance))).

(** The constructor [Gaussian(mean, covariance)]. *)
Definition construct (mean : Vector) (covariance : Matrix) : t :=
  set_covariance (mkGaussian mean []) covariance.

(** The constructor [Gaussian(covariance)], with a zero mean. *)
Definition construct_zero_mean (covariance : Matrix) : t :=
  construct (repeat 0 (length covariance)) covariance.

(** [Eigen::VectorXd(n).unaryExpr(...)] with the lambda that samples the
    distribution: one sample per coefficient, in order. *)
Fixpoint draw_normals (n : nat) (generator : Generator) : Vector * Generator :=
  match n with
  | O => ([], generator)
  | S m =>
    let (z, generator') := s_distribution generator in
    let (zs, generator'') := draw_normals m generator' in
    (z :: zs, generator'')
  end.

(** [Gaussian::operator()]: the sample and the generator after it. *)
Definition sample (g : t) (generator : Generator) : Vector * Generator :=
  let (z, generator') := draw_normals (length (m_mean g)) generator in
  (vplus (m_mean g) (mat_vec (m_transform g) z), generator').

(** The generator after [i] calls of the distribution. *)
Fixpoint advance (i : nat) (generator : Generator) : Generator :=
  match i with
  | O => generator
  | S j => snd (s_distribution (advance j generator))
  end.

End Sampler.

(** [M] is an [n] by [n] matrix. *)
Definition square (n : nat) (M : Matrix) : Prop :=
  length M = n /\ Forall (fun row => length row = n) M.

(** What the eigen solver promises for a symmetric positive-semidefinite
    [covariance] of size [n]: [covariance = V * diag(L) * V^T] with
    nonnegative eigenvalues [L]. *)
Definition eigen_decomposition (n : nat) (covariance V : Matrix) (L : Vector)
  : Prop :=
  square n V /\ length L = n /\ Forall (fun l => 0 <= l) L /\
  forall i j, (i < n)%nat -> (j < n)%nat ->
    entry covariance i j =
    rsum (map (fun k => entry V i k * at_ L k * entry V j k) (seq 0 n)).

(** The matrix whose coefficients are all zero. *)
Definition zero_matrix (n : nat) : Matrix := repeat (repeat 0 n) n.

End Gaussian.

(** ** The weighting step of the trajectory generator *)

Module Trajectory.

Local Open Scope R_scope.

(** The cost of a rollout: a finite [double], or a non-finite one (an
    infinity or a NaN). *)
Inductive cost :=
| Finite (j : R)
| NonFinite.

(** Sum of a list of reals. *)
Definition rsum (l : list R) : R := fold_right Rplus 0 l.

(** The finite costs among the rollout costs. *)
Fixpoint finite_costs (costs : list cost) : list R :=
  match costs with
  | [] => []
  | Finite j :: rest => j :: finite_costs rest
  | NonFinite :: rest => finite_costs rest
  end.

(** Modelled from the spec: the body of [mppi::Trajectory::optimise] is
    missing from the sources (only its declaration and [m_weights] are in
    [mppi.hpp]).  [J_min = min_r J_r], over the rollouts whose cost is
    finite. *)
Definition minimum_cost (costs : list cost) : R :=
  match finite_costs costs with
  | [] => 0
  | j :: rest => fold_left Rmin rest j
  end.

(** Modelled from the spec: the weight of a rollout before normalisation,
    [w_r = exp(-(J_r - J_min) / cost_scale)], and [w_r = 0] if [J_r] is
    non-finite. *)
Definition raw_weight (cost_scale j_min : R) (c : cost) : R :=
  match c with
  | Finite j => exp (- (j - j_min) / cost_scale)
  | NonFinite => 0
  end.

(** Modelled from the spec: the weights before normalisation. *)
Definition raw_weights (cost_scale : R) (costs : list cost) : list R :=
  map (raw_weight cost_scale (minimum_cost costs)) costs.

(** Modelled from the spec: the uniform weight over the rollouts whose cost
    is finite. *)
Definition uniform_over_finite (costs : list cost) : list R :=
  map (fun c =>
         match c with
         | Finite _ => 1 / INR (length (finite_costs costs))
         | NonFinite => 0
         end) costs.

(** Modelled from the spec: step 4 of the update cycle.  The weights are
    normalised so that they sum to one; if their sum is zero the step falls
    back to the uniform weight over the rollouts whose cost is finite. *)
Definition weights (cost_scale : R) (costs : list cost) : list R :=
  let raw := raw_weights cost_scale costs in
  let total := rsum raw in
  if Req_dec_T total 0 then uniform_over_finite costs
  else map (fun w => w / total) raw.

End Trajectory.

(** ** Concrete objects *)

(** A Kalman filter of one state. *)
Definition example_filter : KalmanFilter.t :=
  KalmanFilter.construct
    (KalmanFilter.mkConfiguration 1 1 (midentity 1 1) (mzero 1 1)
       (midentity 1 1) (mzero 1 1) (mzero 1 1) (mzero 1 1)).

(** A Kalman forecaster of one observed coordinate with a time step of 1, a
    horizon of 3, hence 3 steps, whose last update was at [last_update] and
    whose prediction buffer holds 0, 1, 2, 3. *)
Definition example_forecast (last_update : Q) : KalmanForecast.t :=
  KalmanForecast.mkForecast 1 1 3 1 3 last_update (mzero 1 1)
    example_filter example_filter (mkMatrix 1 4 [0; 1; 2; 3]).

(** An AVERAGE forecaster of two coordinates with a window of 1, as
    created. *)
Definition example_average_configuration : AverageForecast.Configuration :=
  AverageForecast.mkConfiguration 1 2.
Definition example_average : AverageForecast.t :=
  AverageForecast.construct 1 2.

(** A factory configuration that selects AVERAGE and provides the AVERAGE
    configuration but no LOCF configuration. *)
Definition example_average_without_locf : Forecast.Configuration unit :=
  Forecast.mkConfiguration unit Forecast.AVERAGE None
    (Some example_average_configuration) None.

(** A generator that counts its calls and a distribution that returns the
    count; an eigen solver for the zero matrix of size 2, which returns the
    identity and two zero eigenvalues. *)
Definition example_distribution (g : nat) : R * nat := (INR g, S g).
Definition example_eigenvectors (covariance : Gaussian.Matrix)
  : Gaussian.Matrix := [[1; 0]; [0; 1]]%R.
Definition example_eigenvalues (covariance : Gaussian.Matrix)
  : Gaussian.Vector := [0; 0]%R.

(** The configuration of a Kalman filter of one state observed directly,
    with the identity as transition. *)
Definition example_filter_configuration : KalmanFilter.Configuration :=
  KalmanFilter.mkConfiguration 1 1 (midentity 1 1) (mzero 1 1)
    (midentity 1 1) (mzero 1 1) (mkMatrix 1 1 [5]) (mzero 1 1).

(** The same filter with a covariance of 1 for the transition, the
    observation and the initial estimate. *)
Definition example_noisy_configuration : KalmanFilter.Configuration :=
  KalmanFilter.mkConfiguration 1 1 (midentity 1 1) (midentity 1 1)
    (midentity 1 1) (midentity 1 1) (mkMatrix 1 1 [5]) (midentity 1 1).

(** The inverse of a matrix of one coefficient; there is none of zero. *)
Definition example_inverse (M : MatrixXd) : option MatrixXd :=
  match rows M, cols M, data M with
  | 1%nat, 1%nat, [x] =>
    if Qeq_bool x 0 then None else Some (mkMatrix 1 1 [/ x])
  | _, _, _ => None
  end.

(** That filter as constructed and after the observation of 7: the gain
    is 1/2 and the estimate 6. *)
Definition example_corrected_filter : KalmanFilter.t :=
  match KalmanFilter.update example_inverse
          (KalmanFilter.construct example_noisy_configuration) [7] with
  | Some f => f
  | None => KalmanFilter.construct example_noisy_configuration
  end.

(** A Kalman forecaster of one observed coordinate with a time step of 1, a
    horizon of 3 and 3 steps, whose filters have these covariances and whose
    last update was at time 1. *)
Definition example_noisy_forecast : KalmanForecast.t :=
  KalmanForecast.mkForecast 1 1 3 1 3 1 (mzero 1 1)
    (KalmanFilter.construct example_noisy_configuration)
    (KalmanFilter.construct example_noisy_configuration)
    (mkMatrix 1 4 [0; 1; 2; 3]).

(** Accessors of a filter that read and write the estimate and the
    covariance and nothing else. *)
Definition example_set_estimation (f : KalmanFilter.t) (e : MatrixXd)
  : KalmanFilter.t :=
  KalmanFilter.mkFilter
    (KalmanFilter.m_observed_state_size f)
    (KalmanFilter.m_estimated_state_size f)
    (KalmanFilter.m_state_transition_matrix f)
    (KalmanFilter.m_transition_covariance f)
    (KalmanFilter.m_observation_matrix f)
    (KalmanFilter.m_observation_covariance f)
    (KalmanFilter.m_identity f) (KalmanFilter.m_covariance f)
    e (KalmanFilter.m_next_state f).
Definition example_set_covariance (f : KalmanFilter.t) (p : MatrixXd)
  : KalmanFilter.t :=
  KalmanFilter.mkFilter
    (KalmanFilter.m_observed_state_size f)
    (KalmanFilter.m_estimated_state_size f)
    (KalmanFilter.m_state_transition_matrix f)
    (KalmanFilter.m_transition_covariance f)
    (KalmanFilter.m_observation_matrix f)
    (KalmanFilter.m_observation_covariance f)
    (KalmanFilter.m_identity f) p
    (KalmanFilter.m_state f) (KalmanFilter.m_next_state f).

(** An objective configuration with every term enabled, two joints limited
    to [-1, 1] and a power limit of 5. *)
Definition example_objective_configuration
  : AssistedManipulation.Configuration :=
  AssistedManipulation.mkConfiguration true true true true true
    [AssistedManipulation.mkQuadraticCost (-1) 1000 100000;
     AssistedManipulation.mkQuadraticCost (-1) 1000 100000]
    [AssistedManipulation.mkQuadraticCost 1 1000 100000;
     AssistedManipulation.mkQuadraticCost 1 1000 100000]
    (AssistedManipulation.mkQuadraticCost 1 1000 100)
    (AssistedManipulation.mkQuadraticCost 0 1000 100)
    (AssistedManipulation.mkQuadraticCost 0 0 1)
    (AssistedManipulation.mkQuadraticCost 5 10 1)
    0 0.


(** A jacobian of one coefficient, 1 or, at a singularity, 0; the
    determinant of a matrix of one coefficient; and the square root of 0 and
    of 1. *)
Definition example_jacobian (full_rank : bool) : MatrixXd :=
  mkMatrix 1 1 [if full_rank then 1 else 0].
Definition example_determinant (M : MatrixXd) : Q := coeff M 0 0.
Definition example_sqrt (x : Q) : Q := x.

(** * Properties *)

Lemma check_dimensions_spec (M : MatrixXd) (r c : nat) :
  KalmanFilter.check_dimensions M r c = true <-> KalmanFilter.has_shape M r c.
Proof.
  unfold KalmanFilter.check_dimensions, KalmanFilter.has_shape.
  rewrite andb_true_iff, !Nat.eqb_eq. tauto.
Qed.

Lemma check_dimensions_false (M : MatrixXd) (r c : nat) :
  KalmanFilter.check_dimensions M r c = false <-> ~ KalmanFilter.has_shape M r c.
Proof.
  rewrite <- check_dimensions_spec.
  destruct (KalmanFilter.check_dimensions M r c); split; intros; congruence.
Qed.

Lemma valid_spec (c : KalmanFilter.Configuration) :
  KalmanFilter.valid c = true <-> KalmanFilter.shapes_correct c.
Proof.
  unfold KalmanFilter.valid, KalmanFilter.shapes_correct.
  rewrite !andb_true_iff, !check_dimensions_spec. tauto.
Qed.

Lemma valid_false_spec (c : KalmanFilter.Configuration) :
  KalmanFilter.valid c = false <-> KalmanFilter.some_shape_wrong c.
Proof.
  unfold KalmanFilter.valid, KalmanFilter.some_shape_wrong.
  rewrite !andb_false_iff, !check_dimensions_false. tauto.
Qed.

(** C6: [KalmanFilter::create] returns the null pointer exactly when at least
    one configuration matrix has a wrong shape (state transition, transition
    covariance or initial covariance not states x states, observation matrix
    not observed x states, observation covariance not observed x observed,
    initial state not a states x 1 column); with every shape correct it returns
    a filter. *)
Theorem kalman_create_fails_iff_shape_wrong (c : KalmanFilter.Configuration) :
  (KalmanFilter.create c = None <-> KalmanFilter.some_shape_wrong c) /\
  (KalmanFilter.shapes_correct c <->
   KalmanFilter.create c = Some (KalmanFilter.construct c)).
Proof.
  unfold KalmanFilter.create.
  destruct (KalmanFilter.valid c) eqn:Hv; simpl.
  - split.
    + split; [discriminate|].
      intros Hw. apply valid_false_spec in Hw. congruence.
    + split; [reflexivity|]. intros _. now apply valid_spec.
  - split.
    + split; [|reflexivity]. intros _. now apply valid_false_spec.
    + split; [|discriminate].
      intros Hs. apply valid_spec in Hs. congruence.
Qed.


(** ** The Kalman forecaster *)

Lemma factorial_even (n : nat) :
  (2 <= n)%nat ->
  (0 <= KalmanForecast.factorial n)%Z /\
  Z.even (KalmanForecast.factorial n) = true.
Proof.
  induction n as [|n IH]; intros Hn; [lia|].
  destruct n as [|n]; [lia|].
  change (KalmanForecast.factorial (S (S n)))
    with (KalmanForecast.u32
            (Z.of_nat (S (S n)) * KalmanForecast.factorial (S n))).
  unfold KalmanForecast.u32. split.
  - apply Z.mod_pos_bound. lia.
  - destruct n as [|n]; [reflexivity|].
    destruct IH as [_ IH]; [lia|].
    rewrite Z.mod_eq by lia.
    rewrite Z.even_sub, !Z.even_mul, IH, orb_true_r. reflexivity.
Qed.

(** Whatever the time step, the coefficient that the code computes for a
    power [i >= 2] is zero: [factorial(i)] is an even [unsigned int], so the
    integer quotient [1 / factorial(i)] is [0]. *)
Lemma transition_coefficient_vanishes (time_step : Q) (i : nat) (c : Q) :
  (2 <= i)%nat ->
  KalmanForecast.transition_coefficient time_step i = Some c -> c == 0.
Proof.
  intros Hi. unfold KalmanForecast.transition_coefficient.
  destruct (factorial_even i Hi) as [Hpos Heven].
  destruct (Z.eqb_spec (KalmanForecast.factorial i) 0) as [|Hne];
    [discriminate|].
  intros [= <-].
  assert (Hge : (2 <= KalmanForecast.factorial i)%Z).
  { destruct (Z.eq_dec (KalmanForecast.factorial i) 1) as [E|E].
    - rewrite E in Heven. discriminate.
    - lia. }
  rewrite Z.div_small by lia. apply Qmult_0_l.
Qed.

(** C1: the transition matrix that the code builds is not the Taylor matrix.
    For two observed coordinates, order two and a time step of one half, the
    entry of row 0, column 4 is [0] and not [dt^2/2! = 1/8], the quotient
    [1 / factorial(2)] being taken on integers.  For three observed
    coordinates and order one, the row of the derivative of the second
    coordinate (row 4) is zero, with no [1] on the diagonal, and row 1 holds a
    [1] in column 3, a row being computed as [derivative * order + state].
    For one observed coordinate and order two a coefficient is written outside
    of the matrix. *)
Theorem euler_transition_matrix_differs_from_taylor :
  (exists M,
     KalmanForecast.create_euler_state_transition_matrix (1 # 2) 2 2 = Some M /\
     coeff M 0 4 == 0 /\
     KalmanForecast.taylor_entry (1 # 2) 2 2 0 4 == 1 # 8 /\
     ~ coeff M 0 4 == KalmanForecast.taylor_entry (1 # 2) 2 2 0 4) /\
  (exists M,
     KalmanForecast.create_euler_state_transition_matrix (1 # 2) 3 1 = Some M /\
     coeff M 4 4 == 0 /\
     KalmanForecast.taylor_entry (1 # 2) 3 1 4 4 == 1 /\
     coeff M 1 3 == 1 /\
     KalmanForecast.taylor_entry (1 # 2) 3 1 1 3 == 0) /\
  KalmanForecast.create_euler_state_transition_matrix (1 # 2) 1 2 = None.
Proof.
  split; [|split].
  - eexists. split; [vm_compute; reflexivity|].
    repeat split; try (vm_compute; reflexivity).
    vm_compute. discriminate.
  - eexists. split; [vm_compute; reflexivity|].
    repeat split; vm_compute; reflexivity.
  - vm_compute. reflexivity.
Qed.

(** C9: [KalmanForecast::update(double time)] leaves the prediction buffer,
    the time of the last update and every other member but [m_filter]
    unchanged, so every forecast is what it was before the call; the filter
    is the one that a single [predict] step yields, which changes the
    estimate, the next estimate and the covariance and none of the filter's
    matrices. *)
Theorem kalman_update_time_preserves_forecast
  (predict_default : bool) (k : KalmanForecast.t) (time : Q) :
  let k' := KalmanForecast.update_time predict_default k time in
  KalmanForecast.m_prediction k' = KalmanForecast.m_prediction k /\
  KalmanForecast.m_last_update k' = KalmanForecast.m_last_update k /\
  (forall ndebug t,
     KalmanForecast.forecast ndebug k' t = KalmanForecast.forecast ndebug k t) /\
  KalmanForecast.m_filter k' =
    KalmanFilter.predict predict_default (KalmanForecast.m_filter k) /\
  k' = KalmanForecast.mkForecast
         (KalmanForecast.m_observed_states k)
         (KalmanForecast.m_estaimted_states k)
         (KalmanForecast.m_horison k) (KalmanForecast.m_time_step k)
         (KalmanForecast.m_steps k) (KalmanForecast.m_last_update k)
         (KalmanForecast.m_measurement k)
         (KalmanForecast.m_filter k')
         (KalmanForecast.m_predictor k) (KalmanForecast.m_prediction k) /\
  KalmanForecast.m_filter k' =
    KalmanFilter.mkFilter
      (KalmanFilter.m_observed_state_size (KalmanForecast.m_filter k))
      (KalmanFilter.m_estimated_state_size (KalmanForecast.m_filter k))
      (KalmanFilter.m_state_transition_matrix (KalmanForecast.m_filter k))
      (KalmanFilter.m_transition_covariance (KalmanForecast.m_filter k))
      (KalmanFilter.m_observation_matrix (KalmanForecast.m_filter k))
      (KalmanFilter.m_observation_covariance (KalmanForecast.m_filter k))
      (KalmanFilter.m_identity (KalmanForecast.m_filter k))
      (KalmanFilter.m_covariance (KalmanForecast.m_filter k'))
      (KalmanFilter.m_next_state (KalmanForecast.m_filter k))
      (KalmanFilter.m_next_state (KalmanForecast.m_filter k')).
Proof.
  intros k'. subst k'.
  repeat split; try reflexivity.
Qed.

(** ** The forecaster factory *)

(** C10: with the type [AVERAGE], [Forecast::create] returns the null pointer
    whenever the LOCF configuration is absent, whatever the AVERAGE
    configuration is; and when the LOCF configuration is present the AVERAGE
    configuration is dereferenced unchecked, which is undefined when it is
    absent. *)
Theorem forecast_create_average_tests_locf
  (LOCFConfiguration LOCFForecast : Type)
  (LOCFForecast_create : LOCFConfiguration -> option LOCFForecast)
  (uninitialised : list Q)
  (c : Forecast.Configuration LOCFConfiguration) :
  Forecast.type _ c = Forecast.AVERAGE ->
  (Forecast.locf _ c = None ->
   Forecast.create _ _ LOCFForecast_create uninitialised c = NullPtr) /\
  (Forecast.locf _ c <> None -> Forecast.average _ c = None ->
   Forecast.create _ _ LOCFForecast_create uninitialised c = Undefined) /\
  (Forecast.locf _ c <> None ->
   forall a, Forecast.average _ c = Some a ->
   Forecast.create _ _ LOCFForecast_create uninitialised c =
   Forecast.upcast _ (Forecast.OfAverage _) (AverageForecast.create a)).
Proof.
  intros Htype. unfold Forecast.create. rewrite Htype.
  repeat split.
  - intros ->. reflexivity.
  - intros Hl Ha. destruct (Forecast.locf _ c); [|congruence].
    now rewrite Ha.
  - intros Hl a Ha. destruct (Forecast.locf _ c); [|congruence].
    now rewrite Ha.
Qed.

(** ** The assisted manipulation objective *)

Section ObjectiveProperties.

Variable Dynamics : Type.
Variable get_power : Dynamics -> Q.
Variable jacobian : Dynamics -> MatrixXd.
Variable reach_offset : Dynamics -> Q.
Variable determinant : MatrixXd -> Q.
Variable sqrt : Q -> Q.
Variable JOINTS : nat.
Variable position : VectorXd -> nat -> Q.

Let reach_cost := AssistedManipulation.reach_cost Dynamics reach_offset.
Let get_cost :=
  AssistedManipulation.get_cost Dynamics get_power jacobian reach_offset
    determinant sqrt JOINTS position.
Let run :=
  AssistedManipulation.run Dynamics get_power jacobian reach_offset
    determinant sqrt JOINTS position.

Lemma reach_cost_is_zero (f : AssistedManipulation.t) (d : Dynamics) :
  reach_cost f d = 0.
Proof. reflexivity. Qed.

Lemma get_cost_agree (f1 f2 : AssistedManipulation.t) s c d time :
  AssistedManipulation.agree_up_to_reach_flag f1 f2 ->
  fst (get_cost f1 s c d time) = fst (get_cost f2 s c d time) /\
  AssistedManipulation.agree_up_to_reach_flag (snd (get_cost f1 s c d time))
                         (snd (get_cost f2 s c d time)).
Proof.
  intros (Hc & Hp & Hm & Hj & Hr1 & Hr2).
  destruct f1 as [c1 ? ? ? ? r1 ?], f2 as [c2 ? ? ? ? r2 ?].
  destruct c1, c2. simpl in *.
  unfold AssistedManipulation.with_reach_limit in Hc. simpl in Hc.
  injection Hc as -> -> -> -> -> -> -> -> -> -> -> ->.
  subst.
  unfold get_cost, AssistedManipulation.get_cost,
    AssistedManipulation.agree_up_to_reach_flag, AssistedManipulation.power_cost,
    AssistedManipulation.manipulability_cost,
    AssistedManipulation.joint_limit_cost,
    AssistedManipulation.reach_cost; simpl.
  repeat match goal with
         | |- context [if ?b then _ else _] => destruct b
         end; repeat split; reflexivity.
Qed.

Lemma run_cons (f : AssistedManipulation.t) s c d time rest :
  run f ((s, c, d, time) :: rest) =
  fst (get_cost f s c d time) :: run (snd (get_cost f s c d time)) rest.
Proof.
  unfold run, get_cost. cbn [AssistedManipulation.run].
  destruct (AssistedManipulation.get_cost _ _ _ _ _ _ _ _ f s c d time).
  reflexivity.
Qed.

Lemma run_agree (calls : list (AssistedManipulation.call Dynamics)) :
  forall f1 f2,
    AssistedManipulation.agree_up_to_reach_flag f1 f2 ->
    run f1 calls = run f2 calls.
Proof.
  induction calls as [|[[[s c] d] time] rest IH]; intros f1 f2 H.
  - reflexivity.
  - rewrite !run_cons.
    destruct (get_cost_agree f1 f2 s c d time H) as [Hfst Hsnd].
    rewrite Hfst. f_equal. now apply IH.
Qed.

(** C8: [reach_cost] returns [0] for every objective and every dynamics
    state, and so the flag [enable_reach_limit] does not change any cost that
    [get_cost] returns: two objectives constructed from configurations that
    differ in this flag only return the same costs on every sequence of
    calls. *)
Theorem reach_limit_never_changes_cost :
  (forall f d, reach_cost f d = 0) /\
  (forall configuration uninitialised calls,
     run (AssistedManipulation.construct
            (AssistedManipulation.with_reach_limit true configuration)
            uninitialised) calls =
     run (AssistedManipulation.construct
            (AssistedManipulation.with_reach_limit false configuration)
            uninitialised) calls).
Proof.
  split.
  - exact reach_cost_is_zero.
  - intros configuration uninitialised calls. apply run_agree.
    repeat split.
Qed.

End ObjectiveProperties.

(** ** The moving-average forecaster *)

Lemma Qltb_lt (a b : Q) : Qltb a b = true <-> a < b.
Proof.
  unfold Qltb. rewrite negb_true_iff.
  split.
  - intros H. apply Qnot_le_lt. intros Hle.
    apply Qle_bool_iff in Hle. congruence.
  - intros H. destruct (Qle_bool b a) eqn:E; [|reflexivity].
    apply Qle_bool_iff in E. exfalso. revert E. now apply Qlt_not_le.
Qed.

Lemma Qltb_ge (a b : Q) : Qltb a b = false <-> b <= a.
Proof.
  unfold Qltb. rewrite negb_false_iff. apply Qle_bool_iff.
Qed.

Section AverageBuffer.

Import AverageForecast.

(** The position from which [clear_old_measurements] keeps the buffer. *)
Let kept_from (buffer : list (Q * VectorXd)) (cutoff : Q) : nat :=
  let it := upper_bound buffer cutoff in
  if Nat.eqb it (length buffer) then (it - 1)%nat else it.

Lemma upper_bound_le (buffer : list (Q * VectorXd)) (cutoff : Q) :
  (upper_bound buffer cutoff <= length buffer)%nat.
Proof.
  induction buffer as [|e rest IH]; simpl; [lia|].
  destruct (Qltb cutoff (fst e)); simpl; lia.
Qed.

Lemma kept_from_lt (buffer : list (Q * VectorXd)) (cutoff : Q) :
  buffer <> [] -> (kept_from buffer cutoff < length buffer)%nat.
Proof.
  intros Hne. unfold kept_from.
  pose proof (upper_bound_le buffer cutoff).
  destruct buffer; [congruence|]. simpl length in *.
  destruct (Nat.eqb_spec (upper_bound (p :: buffer) cutoff) (S (length buffer)));
    lia.
Qed.

Lemma sorted_skipn (n : nat) (buffer : list (Q * VectorXd)) :
  sorted buffer -> sorted (skipn n buffer).
Proof.
  revert buffer. induction n as [|n IH]; intros [|e rest]; simpl; auto.
  intros [_ H]. now apply IH.
Qed.

Lemma Forall_skipn {A : Type} (P : A -> Prop) (n : nat) (l : list A) :
  Forall P l -> Forall P (skipn n l).
Proof.
  revert l. induction n as [|n IH]; intros [|a l]; simpl; auto.
  intros H. inversion H; subst. now apply IH.
Qed.

Lemma last_skipn {A : Type} (d : A) (n : nat) (l : list A) :
  (n < length l)%nat -> last (skipn n l) d = last l d.
Proof.
  revert l. induction n as [|n IH]; intros [|a l] Hn; simpl in *; try lia.
  - reflexivity.
  - rewrite IH by lia. destruct l; [simpl in Hn; lia|reflexivity].
Qed.

Lemma skipn_not_nil {A : Type} (n : nat) (l : list A) :
  (n < length l)%nat -> skipn n l <> [].
Proof.
  intros Hn H. apply (f_equal (@length A)) in H.
  rewrite length_skipn in H. simpl in H. lia.
Qed.

(** On a sorted buffer, everything from the upper bound on is newer than the
    cutoff. *)
Lemma upper_bound_newer (buffer : list (Q * VectorXd)) (cutoff : Q) :
  sorted buffer ->
  Forall (fun e => cutoff < fst e) (skipn (upper_bound buffer cutoff) buffer).
Proof.
  induction buffer as [|e rest IH]; simpl; intros Hs; [constructor|].
  destruct Hs as [Hle Hs].
  destruct (Qltb cutoff (fst e)) eqn:E; simpl.
  - apply Qltb_lt in E. constructor; [assumption|].
    eapply Forall_impl; [|exact Hle]. simpl. intros e' He'.
    eapply Qlt_le_trans; eassumption.
  - now apply IH.
Qed.

(** The elements kept by position, for a buffer that is the tail of a buffer
    of [n] elements starting at position [o]. *)
Let keep (n : nat) (cutoff : Q) (o : nat) (l : list (Q * VectorXd)) :=
  map snd
    (filter (fun p => Qltb cutoff (fst (snd p)) || Nat.eqb (S (fst p)) n)
            (combine (seq o (length l)) l)).

Lemma keep_cons (n : nat) (cutoff : Q) (o : nat) e l :
  keep n cutoff o (e :: l) =
  if Qltb cutoff (fst e) || Nat.eqb (S o) n
  then e :: keep n cutoff (S o) l else keep n cutoff (S o) l.
Proof.
  unfold keep. simpl length. cbn [seq combine filter snd fst].
  destruct (Qltb cutoff (fst e) || Nat.eqb (S o) n); reflexivity.
Qed.

Lemma keep_all_newer (n : nat) (cutoff : Q) (l : list (Q * VectorXd)) :
  forall o, Forall (fun e => cutoff < fst e) l -> keep n cutoff o l = l.
Proof.
  induction l as [|e rest IH]; intros o H; [reflexivity|].
  inversion H as [|? ? He Hrest]; subst.
  rewrite keep_cons. apply Qltb_lt in He. rewrite He. simpl.
  f_equal. now apply IH.
Qed.

Lemma keep_kept_from (cutoff : Q) (l : list (Q * VectorXd)) :
  forall o, l <> [] -> sorted l ->
  keep (o + length l) cutoff o l = skipn (kept_from l cutoff) l.
Proof.
  induction l as [|e rest IH]; intros o Hne Hs; [congruence|].
  destruct rest as [|e' rest'].
  - rewrite keep_cons. simpl length.
    replace (Nat.eqb (S o) (o + 1)) with true
      by (symmetry; apply Nat.eqb_eq; lia).
    rewrite orb_true_r. unfold kept_from. simpl.
    destruct (Qltb cutoff (fst e)); reflexivity.
  - destruct (Qltb cutoff (fst e)) eqn:E.
    + assert (Hall : Forall (fun x => cutoff < fst x) (e :: e' :: rest')).
      { pose proof (upper_bound_newer (e :: e' :: rest') cutoff Hs) as H.
        simpl in H. rewrite E in H. exact H. }
      rewrite keep_all_newer by assumption.
      unfold kept_from. simpl. rewrite E. reflexivity.
    + rewrite keep_cons, E.
      replace (Nat.eqb (S o) (o + length (e :: e' :: rest'))) with false
        by (symmetry; apply Nat.eqb_neq; simpl; lia).
      cbn [orb].
      replace (o + length (e :: e' :: rest'))%nat
        with (S o + length (e' :: rest'))%nat by (simpl; lia).
      rewrite IH; [|discriminate|apply Hs].
      unfold kept_from.
      change (upper_bound (e :: e' :: rest') cutoff)
        with (if Qltb cutoff (fst e) then O
              else S (upper_bound (e' :: rest') cutoff)).
      rewrite E.
      pose proof (upper_bound_le (e' :: rest') cutoff) as Hub.
      remember (upper_bound (e' :: rest') cutoff) as ub.
      simpl length in *.
      destruct (Nat.eqb_spec ub (S (length rest'))) as [Heq|Hneq].
      * rewrite Heq. rewrite Nat.eqb_refl.
        replace (S (S (length rest')) - 1)%nat with (S (length rest')) by lia.
        replace (S (length rest') - 1)%nat with (length rest') by lia.
        reflexivity.
      * replace (Nat.eqb (S ub) (S (S (length rest')))) with false
          by (symmetry; apply Nat.eqb_neq; lia).
        reflexivity.
Qed.

(** What [clear_old_measurements] keeps is what is meant to be retained. *)
Lemma clear_old_measurements_retained (f : t) (time : Q) :
  m_buffer f <> [] -> sorted (m_buffer f) ->
  clear_old_measurements f time =
  Some (mkForecast (m_window f)
          (retained (time - m_window f) (m_buffer f)) (m_average f)).
Proof.
  intros Hne Hs. unfold clear_old_measurements.
  destruct (m_buffer f) as [|e rest] eqn:Hb; [congruence|].
  f_equal. f_equal.
  pose proof (keep_kept_from (time - m_window f) (e :: rest) O Hne Hs) as H.
  rewrite Nat.add_0_l in H. unfold keep, kept_from in H.
  unfold retained. rewrite H. reflexivity.
Qed.

Lemma retained_skipn (cutoff : Q) (buffer : list (Q * VectorXd)) :
  buffer <> [] -> sorted buffer ->
  retained cutoff buffer = skipn (kept_from buffer cutoff) buffer.
Proof.
  intros Hne Hs.
  pose proof (keep_kept_from cutoff buffer O Hne Hs) as H.
  rewrite Nat.add_0_l in H. exact H.
Qed.

Lemma retained_all_newer (cutoff : Q) (buffer : list (Q * VectorXd)) :
  Forall (fun e => cutoff < fst e) buffer -> retained cutoff buffer = buffer.
Proof. intros H. exact (keep_all_newer (length buffer) cutoff buffer O H). Qed.

Lemma retained_singleton (cutoff : Q) (e : Q * VectorXd) :
  retained cutoff [e] = [e].
Proof.
  unfold retained. simpl. rewrite orb_true_r. reflexivity.
Qed.

Lemma upper_bound_none_newer (cutoff : Q) (buffer : list (Q * VectorXd)) :
  Forall (fun e => fst e <= cutoff) buffer ->
  upper_bound buffer cutoff = length buffer.
Proof.
  induction 1 as [|e rest He _ IH]; [reflexivity|].
  simpl. apply Qltb_ge in He. rewrite He. now rewrite IH.
Qed.

Lemma skipn_last_one {A : Type} (d : A) (l : list A) :
  l <> [] -> skipn (length l - 1) l = [last l d].
Proof.
  induction l as [|a l IH]; intros Hne; [congruence|].
  destruct l as [|b l]; [reflexivity|].
  simpl length. replace (S (S (length l)) - 1)%nat with (S (length l)) by lia.
  change (skipn (S (length l)) (a :: b :: l)) with (skipn (length l) (b :: l)).
  replace (length l) with (length (b :: l) - 1)%nat at 1 by (simpl; lia).
  rewrite IH by discriminate. reflexivity.
Qed.

(** Once no element is newer than the cutoff, the most recent element is all
    that is retained. *)
Lemma retained_none_newer (cutoff : Q) (buffer : list (Q * VectorXd)) :
  buffer <> [] -> sorted buffer ->
  Forall (fun e => fst e <= cutoff) buffer ->
  retained cutoff buffer = [last buffer (0, [])].
Proof.
  intros Hne Hs Hold. rewrite retained_skipn by assumption.
  unfold kept_from. rewrite upper_bound_none_newer by assumption.
  rewrite Nat.eqb_refl. now apply skipn_last_one.
Qed.

(** What is retained is one element, or elements that are all newer than
    the cutoff. *)
Lemma retained_span (cutoff : Q) (buffer : list (Q * VectorXd)) :
  buffer <> [] -> sorted buffer ->
  length (retained cutoff buffer) = 1%nat \/
  Forall (fun e => cutoff < fst e) (retained cutoff buffer).
Proof.
  intros Hne Hs. rewrite retained_skipn by assumption. unfold kept_from.
  destruct (Nat.eqb_spec (upper_bound buffer cutoff) (length buffer)) as [E|E].
  - left. rewrite E.
    rewrite (skipn_last_one ((0, []) : Q * VectorXd)) by assumption.
    reflexivity.
  - right. now apply upper_bound_newer.
Qed.

Lemma retained_facts (cutoff : Q) (buffer : list (Q * VectorXd)) :
  buffer <> [] -> sorted buffer ->
  retained cutoff buffer <> [] /\
  sorted (retained cutoff buffer) /\
  last (retained cutoff buffer) (0, []) = last buffer (0, []) /\
  (forall P, Forall P buffer -> Forall P (retained cutoff buffer)) /\
  (length buffer = 1%nat -> retained cutoff buffer = buffer).
Proof.
  intros Hne Hs. rewrite retained_skipn by assumption.
  pose proof (kept_from_lt buffer cutoff Hne) as Hlt.
  repeat split.
  - now apply skipn_not_nil.
  - now apply sorted_skipn.
  - now apply last_skipn.
  - intros P. apply Forall_skipn.
  - intros Hone. replace (kept_from buffer cutoff) with O by lia. reflexivity.
Qed.

End AverageBuffer.

Section AverageMean.

Import AverageForecast.

Lemma vadd_length (a b : VectorXd) (d : nat) :
  length a = d -> length b = d -> length (vadd a b) = d.
Proof.
  intros Ha Hb. unfold vadd.
  rewrite length_map, length_combine. lia.
Qed.

Lemma vadd_nth (a b : VectorXd) (j : nat) :
  length a = length b ->
  nth j (vadd a b) 0 == nth j a 0 + nth j b 0.
Proof.
  intros Hlen. unfold vadd.
  destruct (Nat.lt_ge_cases j (length a)) as [Hj|Hj].
  - change 0 with ((fun p : Q * Q => fst p + snd p) (0, 0)) at 1.
    rewrite map_nth, combine_nth by assumption. reflexivity.
  - rewrite !nth_overflow; try lia.
    + reflexivity.
    + rewrite length_map, length_combine. lia.
Qed.

(** The running total of [update_average], coordinate by coordinate. *)
Lemma total_nth (d : nat) (rest : list (Q * VectorXd)) :
  forall first : VectorXd,
  length first = d ->
  Forall (fun e => length (snd e) = d) rest ->
  length (fold_left (fun total e => vadd total (snd e)) rest first) = d /\
  forall j,
    nth j (fold_left (fun total e => vadd total (snd e)) rest first) 0 ==
    nth j first 0 + qsum (map (fun v => nth j v 0) (map snd rest)).
Proof.
  induction rest as [|e rest IH]; intros first Hf Hd; simpl.
  - split; [assumption|]. intros j. unfold qsum. simpl. ring.
  - apply Forall_cons_iff in Hd. destruct Hd as [He Hrest]. simpl in He.
    destruct (IH (vadd first (snd e))) as [Hlen Hnth].
    + now apply vadd_length.
    + assumption.
    + split; [assumption|]. intros j. rewrite Hnth.
      assert (Hv : length first = length (snd e))
        by exact (eq_trans Hf (eq_sym He)).
      pose proof (vadd_nth first (snd e) j Hv) as Hq.
      rewrite Hq.
      unfold qsum. simpl. ring.
Qed.

Lemma veq_of_nth (g : nat -> Q) (a : VectorXd) :
  forall o,
  (forall j, (j < length a)%nat -> nth j a 0 == g (o + j)%nat) ->
  veq a (map g (seq o (length a))).
Proof.
  induction a as [|x a IH]; intros o H; simpl.
  - constructor.
  - constructor.
    + specialize (H O). simpl in H. rewrite Nat.add_0_r in H.
      apply H. lia.
    + apply IH. intros j Hj. specialize (H (S j)). simpl in H.
      rewrite Nat.add_succ_r in H. apply H. lia.
Qed.

(** On vectors of one size no assertion of the running total fails. *)
Lemma accumulate_sized (d : nat) (rest : list (Q * VectorXd)) :
  forall first : VectorXd,
  length first = d ->
  Forall (fun e => length (snd e) = d) rest ->
  fold_left accumulate rest (Some first) =
  Some (fold_left (fun total e => vadd total (snd e)) rest first).
Proof.
  induction rest as [|e rest IH]; intros first Hf Hd; [reflexivity|].
  apply Forall_cons_iff in Hd. destruct Hd as [He Hrest].
  cbn [fold_left accumulate obind].
  replace (Nat.eqb (length first) (length (snd e))) with true
    by (symmetry; apply Nat.eqb_eq; exact (eq_trans Hf (eq_sym He))).
  apply IH; [now apply vadd_length|assumption].
Qed.

(** [update_average] stores the arithmetic mean of the buffer. *)
Lemma update_average_mean (d : nat) (f : t) :
  m_buffer f <> [] ->
  Forall (fun e => length (snd e) = d) (m_buffer f) ->
  exists average,
    update_average f = Some (mkForecast (m_window f) (m_buffer f) average) /\
    veq average (arithmetic_mean d (map snd (m_buffer f))).
Proof.
  intros Hne Hd. unfold update_average.
  destruct (m_buffer f) as [|first rest]; [congruence|].
  inversion Hd as [|? ? Hfirst Hrest]; subst.
  rewrite (accumulate_sized (length (snd first))) by auto.
  cbn [obind].
  eexists. split; [reflexivity|].
  destruct (total_nth (length (snd first)) rest (snd first) eq_refl Hrest)
    as [Hlen Hnth].
  unfold arithmetic_mean, vdiv.
  set (total := fold_left _ rest (snd first)) in *.
  set (n := inject_Z (Z.of_nat (length (first :: rest)))).
  rewrite length_map. fold n.
  pose proof (veq_of_nth
    (fun j => qsum (map (fun v => nth j v 0) (map snd (first :: rest))) / n)
    (map (fun x => x / n) total) O) as H.
  rewrite length_map, Hlen in H. apply H.
  intros j Hj. simpl.
  rewrite (nth_indep _ 0 (0 / n)) by (rewrite length_map, Hlen; exact Hj).
  rewrite (map_nth (fun x => x / n) total 0 j).
  rewrite Hnth. unfold qsum. simpl. reflexivity.
Qed.

(** The initial state of a created forecaster satisfies the invariant. *)
Lemma create_invariant (c : Configuration) (f : t) :
  create c = Some f -> invariant c f.
Proof.
  unfold create. destruct (Qltb (window c) 0); [discriminate|].
  intros [= <-]. unfold construct. constructor; simpl.
  - reflexivity.
  - discriminate.
  - split; [constructor|exact I].
  - left. reflexivity.
  - constructor; [|constructor]. apply repeat_length.
  - unfold arithmetic_mean. simpl.
    replace (states c) with (length (vzero (states c))) at 2
      by apply repeat_length.
    apply veq_of_nth. intros j Hj. simpl.
    unfold qsum, vzero. simpl. rewrite nth_repeat.
    reflexivity.
Qed.

End AverageMean.

Section AverageSteps.

Import AverageForecast.

Variable c : Configuration.

(** Clearing and averaging a buffer that satisfies the buffer part of the
    invariant. *)
Lemma clear_then_average (f : t) (time : Q) :
  m_buffer f <> [] -> sorted (m_buffer f) ->
  Forall (fun e => length (snd e) = states c) (m_buffer f) ->
  exists average,
    and_then (clear_old_measurements f time) update_average =
    Some (mkForecast (m_window f)
            (retained (time - m_window f) (m_buffer f)) average) /\
    veq average
      (arithmetic_mean (states c)
         (map snd (retained (time - m_window f) (m_buffer f)))).
Proof.
  intros Hne Hs Hd.
  rewrite clear_old_measurements_retained by assumption.
  destruct (retained_facts (time - m_window f) (m_buffer f) Hne Hs)
    as (Hne' & _ & _ & Hall & _).
  simpl and_then.
  set (f' := mkForecast _ _ _).
  destruct (update_average_mean (states c) f') as (average & Hup & Hmean).
  - exact Hne'.
  - apply Hall. exact Hd.
  - exists average. split; assumption.
Qed.

Lemma update_time_step (f : t) (time : Q) :
  invariant c f ->
  exists f',
    update_time f time = Some f' /\
    m_buffer f' = retained (time - window c) (m_buffer f) /\
    invariant c f'.
Proof.
  intros [Hw Hne Hs Hspan Hd Hav].
  destruct (clear_then_average f time Hne Hs Hd) as (average & Hup & Hmean).
  rewrite Hw in *.
  destruct (retained_facts (time - window c) (m_buffer f) Hne Hs)
    as (Hne' & Hs' & Hlast & Hall & Hone).
  eexists. split; [exact Hup|]. split; [reflexivity|].
  constructor; simpl; try assumption; try reflexivity.
  - destruct Hspan as [H1|Hnew].
    + left. rewrite Hone by assumption. assumption.
    + right. rewrite Hlast. apply Hall. exact Hnew.
  - apply Hall. exact Hd.
Qed.

Lemma sorted_le_last (buffer : list (Q * VectorXd)) :
  sorted buffer ->
  Forall (fun e => fst e <= fst (last buffer (0, []))) buffer.
Proof.
  induction buffer as [|e rest IH]; intros Hs; [constructor|].
  destruct Hs as [Hle Hs]. constructor.
  - destruct rest as [|e' rest']; [simpl; apply Qle_refl|].
    change (last (e :: e' :: rest') (0, [])) with (last (e' :: rest') (0, [])).
    specialize (IH Hs). rewrite Forall_forall in Hle.
    apply Hle. destruct (exists_last (l := e' :: rest')) as (l' & a & E);
      [discriminate|].
    rewrite E. rewrite last_last. apply in_or_app. right. now left.
  - destruct rest as [|e' rest']; [constructor|].
    apply IH. exact Hs.
Qed.

Lemma sorted_snoc (buffer : list (Q * VectorXd)) (e : Q * VectorXd) :
  sorted buffer -> Forall (fun e' => fst e' <= fst e) buffer ->
  sorted (buffer ++ [e]).
Proof.
  induction buffer as [|a rest IH]; simpl; intros Hs Hle.
  - split; [constructor|exact I].
  - destruct Hs as [Ha Hs]. inversion Hle as [|? ? Hae Hrest]; subst.
    split.
    + apply Forall_app. split; [assumption|]. constructor; [assumption|constructor].
    + now apply IH.
Qed.

(** The newest timestamp, as the source reads it with [back()]. *)
Lemma back_is_last (buffer : list (Q * VectorXd)) back rest :
  rev buffer = back :: rest -> last buffer (0, []) = back.
Proof.
  intros H. apply (f_equal (@rev _)) in H. rewrite rev_involutive in H.
  rewrite H. simpl. apply last_last.
Qed.

Lemma update_step (f : t) (measurement : VectorXd) (time : Q) :
  invariant c f -> length measurement = states c ->
  exists f',
    update f measurement time = Some f' /\
    m_buffer f' =
      retained (time - window c)
        (if Qltb time (fst (last (m_buffer f) (0, []))) then m_buffer f
         else m_buffer f ++ [(time, measurement)]) /\
    invariant c f'.
Proof.
  intros Hinv Hm. pose proof Hinv as [Hw Hne Hs Hspan Hd Hav].
  unfold update.
  destruct (rev (m_buffer f)) as [|back rest] eqn:Hrev.
  { apply (f_equal (@rev _)) in Hrev. rewrite rev_involutive in Hrev.
    simpl in Hrev. congruence. }
  rewrite (back_is_last _ _ _ Hrev).
  destruct (Qltb time (fst back)) eqn:Hold.
  - (* the measurement is older than the newest one *)
    exists f. split; [reflexivity|]. split; [|assumption].
    destruct Hspan as [H1|Hnew].
    + destruct (m_buffer f) as [|e [|e' r]]; try discriminate.
      now rewrite retained_singleton.
    + symmetry. apply retained_all_newer.
      rewrite (back_is_last _ _ _ Hrev) in Hnew.
      apply Qltb_lt in Hold.
      eapply Forall_impl; [|exact Hnew]. simpl. intros e He.
      eapply Qlt_trans; [|exact He].
      unfold Qminus. apply Qplus_lt_l. exact Hold.
  - (* the measurement is appended *)
    apply Qltb_ge in Hold.
    set (f1 := mkForecast (m_window f) (m_buffer f ++ [(time, measurement)])
                 (m_average f)).
    assert (Hne1 : m_buffer f1 <> []) by (simpl; now destruct (m_buffer f)).
    assert (Hs1 : sorted (m_buffer f1)).
    { simpl. apply sorted_snoc; [assumption|].
      pose proof (sorted_le_last _ Hs) as Hl.
      rewrite (back_is_last _ _ _ Hrev) in Hl.
      eapply Forall_impl; [|exact Hl]. simpl. intros e He.
      eapply Qle_trans; eassumption. }
    assert (Hd1 : Forall (fun e => length (snd e) = states c) (m_buffer f1)).
    { simpl. apply Forall_app. split; [assumption|].
      constructor; [exact Hm|constructor]. }
    destruct (clear_then_average f1 time Hne1 Hs1 Hd1)
      as (average & Hup & Hmean).
    simpl m_window in *. simpl m_buffer in *. rewrite Hw in *.
    destruct (retained_facts (time - window c)
                (m_buffer f ++ [(time, measurement)]) Hne1 Hs1)
      as (Hne' & Hs' & Hlast & Hall & Hone).
    eexists. split; [exact Hup|]. split; [reflexivity|].
    constructor; simpl; try assumption; try reflexivity.
    + destruct (retained_span (time - window c)
                  (m_buffer f ++ [(time, measurement)]) Hne1 Hs1) as [H1|Hnew].
      * left. exact H1.
      * right. rewrite Hlast, last_last. exact Hnew.
    + apply Hall. exact Hd1.
Qed.

(** Every reachable state satisfies the invariant. *)
Lemma reachable_invariant (f : t) : reachable c f -> invariant c f.
Proof.
  induction 1 as [f Hc|f time f' _ IH Hup|f m time f' _ IH Hm Hup].
  - now apply create_invariant.
  - destruct (update_time_step f time IH) as (f'' & Hup' & _ & Hinv).
    congruence.
  - destruct (update_step f m time IH Hm) as (f'' & Hup' & _ & Hinv).
    congruence.
Qed.

End AverageSteps.

Lemma clear_old_measurements_suffix (f : AverageForecast.t) (time : Q) :
  AverageForecast.m_buffer f <> [] ->
  exists k,
    (k < length (AverageForecast.m_buffer f))%nat /\
    AverageForecast.clear_old_measurements f time =
    Some (AverageForecast.mkForecast (AverageForecast.m_window f)
            (skipn k (AverageForecast.m_buffer f))
            (AverageForecast.m_average f)).
Proof.
  intros Hne. unfold AverageForecast.clear_old_measurements.
  pose proof (upper_bound_le (AverageForecast.m_buffer f)
                (time - AverageForecast.m_window f)) as Hub.
  destruct (AverageForecast.m_buffer f) as [|e rest]; [congruence|].
  eexists. split; [|reflexivity].
  simpl length in *.
  destruct (Nat.eqb_spec
              (AverageForecast.upper_bound (e :: rest)
                 (time - AverageForecast.m_window f))
              (S (length rest))); lia.
Qed.

(** C4: the element [(DBL_MIN, 0)] that the constructor puts in the buffer,
    and that its comment announces as erased on the first update, is not
    erased: a forecaster created with a window of 1 for two coordinates and
    given the single observation (2, 4) at time 1/2 holds two elements and
    forecasts (1, 2), where the mean of the observations is (2, 4); and an
    observation at time 0, older than [DBL_MIN], is ignored. *)
Theorem average_initial_element_is_not_erased :
  exists f0 f1,
    AverageForecast.create example_average_configuration = Some f0 /\
    AverageForecast.update f0 [2; 4] (1 # 2) = Some f1 /\
    AverageForecast.m_buffer f1 =
      [(AverageForecast.DBL_MIN, [0; 0]); (1 # 2, [2; 4])] /\
    veq (AverageForecast.forecast f1 (1 # 2)) [1; 2] /\
    ~ veq (AverageForecast.forecast f1 (1 # 2))
        (AverageForecast.arithmetic_mean 2 [[2; 4]]) /\
    AverageForecast.update f0 [2; 4] 0 = Some f0.
Proof.
  eexists. eexists. split; [reflexivity|].
  split; [vm_compute; reflexivity|]. split; [reflexivity|].
  split; [repeat constructor|]. split; [|reflexivity].
  intros H. inversion H as [|? ? ? ? Hq _]; subst.
  vm_compute in Hq. discriminate.
Qed.

(** C7: on a nonempty buffer, [update(value, time)] with a timestamp strictly
    older than the newest one returns with the forecaster unchanged (buffer,
    average and so every later result).  With a timestamp equal to the
    newest one, a value of the size of the buffered vectors is added: the
    call returns, the observation is the most recent element of the buffer,
    the buffer is an end of the former buffer extended by the observation,
    and the average is the mean of the buffer. *)
Theorem average_forecast_rejects_older
  (f : AverageForecast.t) (measurement : VectorXd) (time : Q) :
  AverageForecast.m_buffer f <> [] ->
  (time < fst (last (AverageForecast.m_buffer f) (0, [])) ->
   AverageForecast.update f measurement time = Some f) /\
  (time == fst (last (AverageForecast.m_buffer f) (0, [])) ->
   Forall (fun e => length (snd e) = length measurement)
     (AverageForecast.m_buffer f) ->
   exists f',
     AverageForecast.update f measurement time = Some f' /\
     last (AverageForecast.m_buffer f') (0, []) = (time, measurement) /\
     (exists k,
        AverageForecast.m_buffer f' =
        skipn k (AverageForecast.m_buffer f ++ [(time, measurement)])) /\
     forall t,
       veq (AverageForecast.forecast f' t)
         (AverageForecast.arithmetic_mean (length measurement)
            (map snd (AverageForecast.m_buffer f')))).
Proof.
  intros Hne. unfold AverageForecast.update.
  destruct (rev (AverageForecast.m_buffer f)) as [|back rest] eqn:Hrev.
  { apply (f_equal (@rev _)) in Hrev. rewrite rev_involutive in Hrev.
    simpl in Hrev. congruence. }
  rewrite (back_is_last _ _ _ Hrev). split.
  - intros Hold. apply Qltb_lt in Hold. now rewrite Hold.
  - intros Heq Hd.
    assert (Hnew : Qltb time (fst back) = false).
    { apply Qltb_ge. rewrite Heq. apply Qle_refl. }
    rewrite Hnew.
    set (f1 := AverageForecast.mkForecast _ _ _).
    assert (Hne1 : AverageForecast.m_buffer f1 <> [])
      by (simpl; now destruct (AverageForecast.m_buffer f)).
    destruct (clear_old_measurements_suffix f1 time Hne1) as (k & Hk & Hclear).
    rewrite Hclear. simpl AverageForecast.and_then.
    set (f2 := AverageForecast.mkForecast _ (skipn k _) _).
    assert (Hne2 : AverageForecast.m_buffer f2 <> [])
      by (simpl; now apply skipn_not_nil).
    assert (Hd2 : Forall (fun e => length (snd e) = length measurement)
                    (AverageForecast.m_buffer f2)).
    { simpl. apply Forall_skipn. apply Forall_app. split; [assumption|].
      constructor; [reflexivity|constructor]. }
    destruct (update_average_mean (length measurement) f2 Hne2 Hd2)
      as (average & Hup & Hmean).
    rewrite Hup. eexists. split; [reflexivity|]. simpl. split; [|split].
    + rewrite last_skipn by exact Hk. apply last_last.
    + exists k. reflexivity.
    + intros _. exact Hmean.
Qed.

(** ** Forecasts of the Kalman forecaster *)

Lemma col_inside (M : MatrixXd) (j : nat) :
  (j < cols M)%nat -> col M (Z.of_nat j) = Some (column M j).
Proof.
  intros Hj. unfold col.
  replace (0 <=? Z.of_nat j)%Z with true by (symmetry; apply Z.leb_le; lia).
  replace (Z.of_nat j <? Z.of_nat (cols M))%Z with true
    by (symmetry; apply Z.ltb_lt; lia).
  simpl. now rewrite Nat2Z.id.
Qed.

(** The number of steps is the rounded quotient: with the [double] nearest
    to 0.1 as time step, which is above 0.1, one second is 10 steps for the
    code, where the exact quotient is below 10 and truncates to 9. *)
Lemma steps_are_rounded :
  Double.round (1 # 10) = Some (3602879701896397 # 36028797018963968) /\
  Double.div 1 (3602879701896397 # 36028797018963968) = Some 10 /\
  Double.truncate (1 / (3602879701896397 # 36028797018963968)) = 9%Z.
Proof. repeat split; vm_compute; reflexivity. Qed.

(** C3: [forecast] compares the query time with the length [m_horison] of
    the horizon and not with its end, [m_last_update + m_horison].  With a
    time step of 1, a horizon of 3 and the predictions 0, 1, 2, 3: after an
    update at time 10, a query at 21/2, half a step into the horizon,
    returns the last prediction 3 and not the interpolation 1/2 between the
    first two predictions; and after an update at time 0, a query at time
    3, the end of the horizon, is not past [m_horison], so that [forecast]
    reads the column after the last one and returns no vector, with the
    assertions compiled in or not. *)
Theorem kalman_forecast_horizon_is_a_duration :
  KalmanForecast.forecast false (example_forecast 10) (21 # 2) = Some [3] /\
  KalmanForecast.forecast true (example_forecast 10) (21 # 2) = Some [3] /\
  ~ veq [3]
      (vadd (vscale (1 - (1 # 2))
               (column (KalmanForecast.m_prediction (example_forecast 10)) 0))
            (vscale (1 # 2)
               (column (KalmanForecast.m_prediction (example_forecast 10)) 1))) /\
  KalmanForecast.forecast false (example_forecast 0) 3 = None /\
  KalmanForecast.forecast true (example_forecast 0) 3 = None /\
  rightCols1 (KalmanForecast.m_prediction (example_forecast 0)) = Some [3].
Proof.
  split; [reflexivity|]. split; [reflexivity|]. split.
  - intros H. inversion H as [|? ? ? ? Hq _]; subst.
    vm_compute in Hq. discriminate.
  - repeat split; vm_compute; reflexivity.
Qed.

(** A query before the last update is not clamped to the first prediction:
    with a last update at time 1, a query at time 1/2 fails the assertion
    when the assertions are compiled in, and extrapolates to -1/2
    otherwise. *)
Lemma kalman_forecast_before_last_update :
  KalmanForecast.forecast false (example_forecast 1) (1 # 2) = None /\
  (exists r,
     KalmanForecast.forecast true (example_forecast 1) (1 # 2) = Some r /\
     veq r [- (1 # 2)]).
Proof.
  split; [reflexivity|].
  eexists. split; [vm_compute; reflexivity|].
  constructor; [reflexivity|constructor].
Qed.

(** ** The weighting step *)

Section Weights.

Import Trajectory.

Local Open Scope R_scope.

Variable cost_scale : R.

Lemma raw_weight_nonneg (j_min : R) (c : cost) :
  0 <= raw_weight cost_scale j_min c.
Proof.
  destruct c; simpl; [left; apply exp_pos|apply Rle_refl].
Qed.

Lemma rsum_nonneg (l : list R) : Forall (fun x => 0 <= x) l -> 0 <= rsum l.
Proof.
  induction 1 as [|x l Hx _ IH]; simpl; [apply Rle_refl|lra].
Qed.

Lemma raw_weights_nonneg (j_min : R) (costs : list cost) :
  Forall (fun x => 0 <= x) (map (raw_weight cost_scale j_min) costs).
Proof.
  induction costs as [|c rest IH]; simpl; constructor;
    [apply raw_weight_nonneg|exact IH].
Qed.

(** With one finite cost the raw weights have a positive sum. *)
Lemma raw_sum_positive (j_min : R) (costs : list cost) :
  (exists j, In (Finite j) costs) ->
  0 < rsum (map (raw_weight cost_scale j_min) costs).
Proof.
  intros [j Hj]. induction costs as [|c rest IH]; [contradiction|].
  simpl. pose proof (rsum_nonneg _ (raw_weights_nonneg j_min rest)) as Hrest.
  destruct Hj as [->|Hj].
  - simpl. pose proof (exp_pos (- (j - j_min) / cost_scale)). lra.
  - specialize (IH Hj). pose proof (raw_weight_nonneg j_min c). lra.
Qed.

Lemma all_non_finite (costs : list cost) :
  ~ (exists j, In (Finite j) costs) -> Forall (fun c => c = NonFinite) costs.
Proof.
  intros H. apply Forall_forall. intros [j|] Hin; [|reflexivity].
  exfalso. apply H. now exists j.
Qed.

Lemma finite_or_not (costs : list cost) :
  (exists j, In (Finite j) costs) \/ Forall (fun c => c = NonFinite) costs.
Proof.
  induction costs as [|[j|] rest IH].
  - right. constructor.
  - left. exists j. now left.
  - destruct IH as [[j Hj]|Hall].
    + left. exists j. now right.
    + right. now constructor.
Qed.

Lemma rsum_scaled (total : R) (l : list R) :
  rsum (map (fun w => w / total) l) = rsum l / total.
Proof.
  induction l as [|x l IH]; simpl; [lra|]. rewrite IH. lra.
Qed.

Lemma fold_Rmin_le (l : list R) :
  forall a, fold_left Rmin l a <= a /\
            Forall (fun x => fold_left Rmin l a <= x) l.
Proof.
  induction l as [|x l IH]; intros a; simpl.
  - split; [apply Rle_refl|constructor].
  - destruct (IH (Rmin a x)) as [Hle Hall]. split.
    + eapply Rle_trans; [exact Hle|apply Rmin_l].
    + constructor; [|exact Hall].
      eapply Rle_trans; [exact Hle|apply Rmin_r].
Qed.

Lemma fold_Rmin_in (l : list R) :
  forall a, fold_left Rmin l a = a \/ In (fold_left Rmin l a) l.
Proof.
  induction l as [|x l IH]; intros a; simpl; [now left|].
  destruct (IH (Rmin a x)) as [H|H].
  - rewrite H. unfold Rmin. destruct (Rle_dec a x); [now left|right; now left].
  - right. now right.
Qed.

Lemma finite_costs_in (costs : list cost) (j : R) :
  In j (finite_costs costs) <-> In (Finite j) costs.
Proof.
  induction costs as [|[x|] rest IH]; simpl.
  - tauto.
  - rewrite IH. split; intros [H|H]; auto; left; congruence.
  - rewrite IH. split; [auto|]. intros [H|H]; [discriminate|assumption].
Qed.

(** [minimum_cost] is the least of the finite costs. *)
Lemma minimum_cost_least (costs : list cost) :
  (forall j, In (Finite j) costs -> minimum_cost costs <= j) /\
  ((exists j, In (Finite j) costs) -> In (Finite (minimum_cost costs)) costs).
Proof.
  unfold minimum_cost. split.
  - intros j Hj. apply finite_costs_in in Hj.
    destruct (finite_costs costs) as [|a rest]; [contradiction|].
    destruct (fold_Rmin_le rest a) as [Ha Hall].
    destruct Hj as [<-|Hj]; [assumption|].
    rewrite Forall_forall in Hall. now apply Hall.
  - intros [j Hj]. apply finite_costs_in in Hj. apply finite_costs_in.
    destruct (finite_costs costs) as [|a rest]; [contradiction|].
    destruct (fold_Rmin_in rest a) as [H|H]; [rewrite H; now left|now right].
Qed.

Lemma weights_all_non_finite (costs : list cost) :
  Forall (fun c => c = NonFinite) costs ->
  Forall (fun x => x = 0) (weights cost_scale costs).
Proof.
  intros Hall. unfold weights.
  assert (Hraw : forall j_min,
            map (raw_weight cost_scale j_min) costs =
            map (fun _ => 0) costs).
  { intros j_min. apply map_ext_in. intros c Hc.
    rewrite Forall_forall in Hall. now rewrite (Hall c Hc). }
  destruct (Req_dec_T (rsum (raw_weights cost_scale costs)) 0) as [_|Hne].
  - unfold uniform_over_finite. apply Forall_forall. intros x Hx.
    apply in_map_iff in Hx. destruct Hx as (c & <- & Hc).
    rewrite Forall_forall in Hall. now rewrite (Hall c Hc).
  - exfalso. apply Hne. unfold raw_weights. rewrite Hraw.
    clear. induction costs; simpl; [reflexivity|lra].
Qed.

(** C2: after the weighting step either some rollout cost is finite, every
    weight is nonnegative and the weights sum to exactly 1, or every rollout
    cost is non-finite and every weight is zero.  Before normalisation the
    weight of rollout [r] is [exp(-(J_r - J_min) / cost_scale)] for a finite
    cost [J_r] and zero for a non-finite one, [J_min] being the least finite
    cost; with a finite cost the weights are the raw weights divided by
    their sum. *)
Theorem weights_sum_to_one_or_vanish (costs : list cost) :
  let w := weights cost_scale costs in
  (((exists j, In (Finite j) costs) /\
    Forall (fun x => 0 <= x) w /\ rsum w = 1 /\
    w = map (fun x => x / rsum (raw_weights cost_scale costs))
          (raw_weights cost_scale costs)) \/
   (Forall (fun c => c = NonFinite) costs /\ Forall (fun x => x = 0) w)) /\
  length w = length costs /\
  (forall r,
     nth r (raw_weights cost_scale costs) 0 =
     match nth r costs NonFinite with
     | Finite j => exp (- (j - minimum_cost costs) / cost_scale)
     | NonFinite => 0
     end) /\
  (forall j, In (Finite j) costs -> minimum_cost costs <= j) /\
  ((exists j, In (Finite j) costs) -> In (Finite (minimum_cost costs)) costs).
Proof.
  intros w. subst w. repeat split.
  - destruct (finite_or_not costs) as [Hfin|Hall].
    + left. split; [assumption|].
      pose proof (raw_sum_positive (minimum_cost costs) costs Hfin) as Hpos.
      unfold weights.
      destruct (Req_dec_T (rsum (raw_weights cost_scale costs)) 0) as [E|_].
      { unfold raw_weights in E. lra. }
      fold (raw_weights cost_scale costs) in Hpos.
      repeat split.
      * apply Forall_forall. intros x Hx. apply in_map_iff in Hx.
        destruct Hx as (y & <- & Hy). unfold raw_weights in Hy.
        apply in_map_iff in Hy. destruct Hy as (c & <- & _).
        pose proof (raw_weight_nonneg (minimum_cost costs) c) as Hc.
        apply Rmult_le_pos; [assumption|].
        left. now apply Rinv_0_lt_compat.
      * rewrite rsum_scaled. field. lra.
    + right. split; [assumption|]. now apply weights_all_non_finite.
  - unfold weights, uniform_over_finite, raw_weights.
    destruct (Req_dec_T _ 0); now rewrite ?length_map.
  - intros r. unfold raw_weights.
    change 0 with (raw_weight cost_scale (minimum_cost costs) NonFinite) at 1.
    now rewrite map_nth.
  - apply minimum_cost_least.
  - apply minimum_cost_least.
Qed.

End Weights.

(** ** The Gaussian sampler *)

Section GaussianProperties.

Import Gaussian.

Local Open Scope R_scope.

Variable Generator : Type.
Variable s_distribution : Generator -> R * Generator.
Variable eigenvectors : Matrix -> Matrix.
Variable eigenvalues : Matrix -> Vector.

Let construct := Gaussian.construct eigenvectors eigenvalues.
Let draw_normals := Gaussian.draw_normals Generator s_distribution.
Let sample := Gaussian.sample Generator s_distribution.
Let advance := Gaussian.advance Generator s_distribution.

Lemma vmul_at (a b : Vector) (k : nat) :
  at_ (vmul a b) k = at_ a k * at_ b k.
Proof.
  unfold at_, vmul. revert b k.
  induction a as [|x a IH]; intros b k.
  - simpl. destruct k; ring.
  - destruct b as [|y b].
    + simpl. destruct k; ring.
    + destruct k as [|k]; simpl; [reflexivity|apply IH].
Qed.

Lemma vmul_length (a b : Vector) (n : nat) :
  length a = n -> length b = n -> length (vmul a b) = n.
Proof.
  intros Ha Hb. unfold vmul. rewrite length_map, length_combine. lia.
Qed.

Lemma map_sqrt_at (L : Vector) (k : nat) :
  at_ (map sqrt L) k = sqrt (at_ L k).
Proof.
  unfold at_. rewrite <- sqrt_0 at 1. apply map_nth.
Qed.

(** The coefficients of [V * s.asDiagonal()]. *)
Lemma times_diagonal_entry (V : Matrix) (s : Vector) (i k : nat) :
  entry (times_diagonal V s) i k = entry V i k * at_ s k.
Proof.
  unfold entry, times_diagonal.
  change (@nil R) with (vmul [] s) at 1.
  rewrite (map_nth (fun row => vmul row s)). apply vmul_at.
Qed.

(** The scalar product as a sum over the indices. *)
Lemma dot_as_sum (n : nat) :
  forall a b : Vector, length a = n -> length b = n ->
  dot a b = rsum (map (fun k => at_ a k * at_ b k) (seq 0 n)).
Proof.
  unfold dot, vmul, at_.
  induction n as [|n IH]; intros [|x a] [|y b] Ha Hb; try discriminate.
  - reflexivity.
  - simpl. rewrite <- seq_shift, map_map. f_equal.
    apply IH; simpl in *; lia.
Qed.

Lemma dot_zero_row (a b : Vector) :
  (forall k, at_ a k = 0) -> dot a b = 0.
Proof.
  unfold dot, vmul, at_. revert b.
  induction a as [|x a IH]; intros [|y b] H; simpl; try reflexivity.
  rewrite IH.
  - specialize (H O). simpl in H. rewrite H. ring.
  - intros k. exact (H (S k)).
Qed.

Lemma mat_vec_zero (M : Matrix) (z : Vector) :
  Forall (fun row => forall k, at_ row k = 0) M ->
  mat_vec M z = repeat 0 (length M).
Proof.
  induction 1 as [|row M Hrow _ IH]; simpl; [reflexivity|].
  rewrite dot_zero_row by assumption. f_equal. exact IH.
Qed.

Lemma vplus_zero (a : Vector) : vplus a (repeat 0 (length a)) = a.
Proof.
  unfold vplus. induction a as [|x a IH]; simpl; [reflexivity|].
  rewrite IH. f_equal. ring.
Qed.

Lemma vplus_at (a b : Vector) (i : nat) :
  length a = length b -> at_ (vplus a b) i = at_ a i + at_ b i.
Proof.
  unfold vplus, at_. revert b i.
  induction a as [|x a IH]; intros [|y b] i H; try discriminate.
  - destruct i; simpl; ring.
  - destruct i; simpl; [reflexivity|]. apply IH. simpl in H. lia.
Qed.

Lemma mat_vec_at (M : Matrix) (z : Vector) (i : nat) :
  (i < length M)%nat -> at_ (mat_vec M z) i = dot (nth i M []) z.
Proof.
  intros Hi. unfold at_, mat_vec.
  rewrite (nth_indep _ 0 (dot [] z)) by (rewrite length_map; exact Hi).
  apply (map_nth (fun row => dot row z)).
Qed.

(** A sum of nonnegative terms that is zero has zero terms only. *)
Lemma rsum_zero_terms (f : nat -> R) (l : list nat) :
  (forall k, In k l -> 0 <= f k) -> rsum (map f l) = 0 ->
  forall k, In k l -> f k = 0.
Proof.
  induction l as [|a l IH]; intros Hpos Hsum k Hk; [contradiction|].
  simpl in Hsum.
  assert (Ha : 0 <= f a) by (apply Hpos; now left).
  assert (Hl : 0 <= rsum (map f l)).
  { clear -Hpos. induction l as [|b l IH]; simpl; [apply Rle_refl|].
    assert (0 <= f b) by (apply Hpos; right; now left).
    assert (0 <= rsum (map f l)).
    { apply IH. intros k [->|Hk]; apply Hpos; [now left|right; now right]. }
    lra. }
  destruct Hk as [->|Hk]; [lra|].
  apply IH; try assumption; [|lra].
  intros j Hj. apply Hpos. now right.
Qed.

(** The samples drawn for one vector: their number, the generator that each
    one is drawn from, and the generator that is left. *)
Lemma draw_normals_spec (n : nat) :
  forall generator,
  length (fst (draw_normals n generator)) = n /\
  snd (draw_normals n generator) = advance n generator /\
  forall i, (i < n)%nat ->
    at_ (fst (draw_normals n generator)) i =
    fst (s_distribution (advance i generator)).
Proof.
  unfold draw_normals, advance.
  induction n as [|n IH]; intros generator.
  - repeat split. intros i Hi. lia.
  - simpl.
    destruct (s_distribution generator) as [z g1] eqn:E1.
    destruct (IH g1) as (Hlen & Hgen & Hnth).
    destruct (Gaussian.draw_normals Generator s_distribution n g1)
      as [zs g2] eqn:E2.
    simpl in *.
    assert (Hadv : forall i,
              Gaussian.advance Generator s_distribution i g1 =
              snd (s_distribution
                     (Gaussian.advance Generator s_distribution i generator))).
    { induction i as [|i IHi]; simpl; [now rewrite E1|now rewrite IHi]. }
    repeat split.
    + now rewrite Hlen.
    + now rewrite Hgen, Hadv.
    + intros [|i] Hi; simpl; [now rewrite E1|].
      unfold at_ in *. simpl. rewrite Hnth by lia.
      now rewrite Hadv.
Qed.

Lemma eigenvalue_nonneg (n : nat) (L : Vector) (k : nat) :
  Forall (fun l => 0 <= l) L -> 0 <= at_ L k.
Proof.
  intros H. unfold at_.
  destruct (Nat.lt_ge_cases k (length L)) as [Hk|Hk].
  - rewrite Forall_forall in H. apply H. now apply nth_In.
  - rewrite nth_overflow by assumption. apply Rle_refl.
Qed.

Lemma row_length (n : nat) (V : Matrix) (i : nat) :
  square n V -> (i < n)%nat -> length (nth i V []) = n.
Proof.
  intros [Hlen Hrows] Hi. rewrite Forall_forall in Hrows.
  apply Hrows. apply nth_In. lia.
Qed.

(** With a zero covariance the stored transform is zero. *)
Lemma zero_covariance_zero_transform
  (n : nat) (covariance V : Matrix) (L : Vector) :
  eigen_decomposition n covariance V L ->
  (forall i j, (i < n)%nat -> (j < n)%nat -> entry covariance i j = 0) ->
  Forall (fun row => forall k, at_ row k = 0)
         (times_diagonal V (map sqrt L)).
Proof.
  intros (Hsq & HL & Hpos & Hdec) Hzero.
  apply Forall_forall. intros row Hrow.
  unfold times_diagonal in Hrow. apply in_map_iff in Hrow.
  destruct Hrow as (v & <- & Hv).
  destruct (In_nth _ _ [] Hv) as (i & Hi & Hnth).
  destruct Hsq as [HlenV Hrows]. rewrite HlenV in Hi.
  intros k. rewrite vmul_at, map_sqrt_at.
  destruct (Nat.lt_ge_cases k n) as [Hk|Hk].
  - pose proof (Hdec i i Hi Hi) as Hii. rewrite (Hzero i i Hi Hi) in Hii.
    symmetry in Hii.
    pose proof (rsum_zero_terms
                  (fun k => entry V i k * at_ L k * entry V i k) (seq 0 n))
      as Hterms.
    assert (Hk0 : entry V i k * at_ L k * entry V i k = 0).
    { apply Hterms; [|exact Hii|apply in_seq; lia].
      intros j _. pose proof (eigenvalue_nonneg n L j Hpos).
      replace (entry V i j * at_ L j * entry V i j)
        with (Rsqr (entry V i j) * at_ L j) by (unfold Rsqr; ring).
      apply Rmult_le_pos; [apply Rle_0_sqr|assumption]. }
    unfold entry in Hk0. rewrite Hnth in Hk0.
    apply Rsqr_0_uniq. unfold Rsqr.
    replace (at_ v k * sqrt (at_ L k) * (at_ v k * sqrt (at_ L k)))
      with (at_ v k * (sqrt (at_ L k) * sqrt (at_ L k)) * at_ v k) by ring.
    rewrite sqrt_sqrt by (now apply (eigenvalue_nonneg n)).
    exact Hk0.
  - rewrite Forall_forall in Hrows. specialize (Hrows v Hv).
    unfold at_ at 1. rewrite nth_overflow by lia. ring.
Qed.

(** C5: when the eigen solver returns the decomposition
    [covariance = V * diag(L) * V^T] of a positive-semidefinite covariance,
    the sampler stores the transform [T = V * diag(sqrt L)], whose
    coefficients are [V(i,k) * sqrt(L(k))] and which satisfies
    [T * T^T = covariance]; a draw takes one standard normal sample per
    coordinate from the shared generator, in order, and equals
    [mean + T * z]; with a zero covariance every draw equals the mean. *)
Theorem gaussian_sample_is_mean_plus_transform
  (mean : Vector) (covariance : Matrix) (generator : Generator) :
  let n := length mean in
  let V := eigenvectors covariance in
  let L := eigenvalues covariance in
  let g := construct mean covariance in
  let z := fst (draw_normals n generator) in
  eigen_decomposition n covariance V L ->
  m_mean g = mean /\
  m_transform g = times_diagonal V (map sqrt L) /\
  (forall i k, entry (m_transform g) i k = entry V i k * sqrt (at_ L k)) /\
  (forall i j, (i < n)%nat -> (j < n)%nat ->
     entry covariance i j =
     rsum (map (fun k => entry (m_transform g) i k * entry (m_transform g) j k)
               (seq 0 n))) /\
  length z = n /\
  (forall i, (i < n)%nat ->
     at_ z i = fst (s_distribution (advance i generator))) /\
  sample g generator =
    (vplus mean (mat_vec (m_transform g) z), advance n generator) /\
  (forall i, (i < n)%nat ->
     at_ (fst (sample g generator)) i =
     at_ mean i +
     rsum (map (fun k => entry (m_transform g) i k * at_ z k) (seq 0 n))) /\
  ((forall i j, (i < n)%nat -> (j < n)%nat -> entry covariance i j = 0) ->
   fst (sample g generator) = mean).
Proof.
  intros n V L g z Hdec.
  assert (Hentry : forall i k,
            entry (m_transform g) i k = entry V i k * sqrt (at_ L k)).
  { intros i k. subst g. unfold construct, Gaussian.construct,
      set_covariance. simpl.
    now rewrite times_diagonal_entry, map_sqrt_at. }
  destruct (draw_normals_spec n generator) as (Hlen & Hgen & Hnth).
  assert (Hsample : sample g generator =
            (vplus mean (mat_vec (m_transform g) z), advance n generator)).
  { unfold sample, Gaussian.sample. subst g z. simpl m_mean. fold n.
    unfold draw_normals in *.
    destruct (Gaussian.draw_normals Generator s_distribution n generator)
      as [zs g'] eqn:E.
    simpl in *. now rewrite Hgen. }
  pose proof Hdec as (Hsq & HL & Hpos & Hsum).
  assert (HlenT : length (m_transform g) = n).
  { subst g. simpl. unfold times_diagonal. rewrite length_map. apply Hsq. }
  repeat split; try assumption; try reflexivity.
  - intros i j Hi Hj. rewrite (Hsum i j Hi Hj). f_equal.
    apply map_ext. intros k. rewrite !Hentry.
    replace (entry V i k * sqrt (at_ L k) * (entry V j k * sqrt (at_ L k)))
      with (entry V i k * (sqrt (at_ L k) * sqrt (at_ L k)) * entry V j k)
      by ring.
    rewrite sqrt_sqrt by (now apply (eigenvalue_nonneg n)). reflexivity.
  - intros i Hi. rewrite Hsample. simpl fst.
    rewrite vplus_at
      by (unfold mat_vec; rewrite length_map; exact (eq_sym HlenT)).
    f_equal. rewrite mat_vec_at by (exact (eq_ind_r (lt i) Hi HlenT)).
    apply dot_as_sum; [|exact Hlen].
    subst g. simpl. unfold times_diagonal.
    change (@nil R) with (vmul [] (map sqrt L)).
    rewrite (map_nth (fun row => vmul row (map sqrt L))).
    apply vmul_length; [now apply row_length|now rewrite length_map].
  - intros Hzero. rewrite Hsample. simpl fst.
    rewrite mat_vec_zero.
    + change (length (times_diagonal (eigenvectors covariance)
                        (map sqrt (eigenvalues covariance))))
        with (length (m_transform g)).
      rewrite HlenT. apply vplus_zero.
    + subst g. simpl. now apply (zero_covariance_zero_transform n covariance).
Qed.

End GaussianProperties.

(** ** Instances *)

(** The witness of [average_forecast_rejects_older]: the forecaster as
    created holds one element stamped [DBL_MIN], so a first observation at
    time 0 is older than it and is rejected, and an observation at time
    [DBL_MIN] is added. *)
Lemma average_forecast_rejects_older_witness :
  AverageForecast.update example_average [1; 2] 0 = Some example_average /\
  exists f',
    AverageForecast.update example_average [1; 2] AverageForecast.DBL_MIN =
      Some f' /\
    last (AverageForecast.m_buffer f') (0, []) =
      (AverageForecast.DBL_MIN, [1; 2]) /\
    (exists k,
       AverageForecast.m_buffer f' =
       skipn k (AverageForecast.m_buffer example_average ++
                [(AverageForecast.DBL_MIN, [1; 2])])) /\
    forall t,
      veq (AverageForecast.forecast f' t)
        (AverageForecast.arithmetic_mean 2
           (map snd (AverageForecast.m_buffer f'))).
Proof.
  split.
  - refine (proj1 (average_forecast_rejects_older example_average [1; 2] 0 _)
              _).
    + discriminate.
    + vm_compute. reflexivity.
  - refine (proj2 (average_forecast_rejects_older example_average [1; 2]
                     AverageForecast.DBL_MIN _) _ _).
    + discriminate.
    + vm_compute. reflexivity.
    + repeat constructor.
Defined.

(** The witness of [forecast_create_average_tests_locf]: the AVERAGE
    configuration is there, the LOCF configuration is not, and no forecaster
    is created. *)
Lemma forecast_create_average_tests_locf_witness :
  Forecast.create unit unit (fun _ => None) [] example_average_without_locf =
  NullPtr.
Proof.
  refine (proj1 (forecast_create_average_tests_locf unit unit (fun _ => None)
                   [] example_average_without_locf _) _).
  - reflexivity.
  - reflexivity.
Defined.

(** The witness of [gaussian_sample_is_mean_plus_transform]: with the zero
    covariance of size 2 a draw is the mean. *)
Lemma gaussian_sample_is_mean_plus_transform_witness :
  fst (Gaussian.sample nat example_distribution
         (Gaussian.construct example_eigenvectors example_eigenvalues
            [1; 2]%R (Gaussian.zero_matrix 2)) O) = [1; 2]%R.
Proof.
  refine (proj2 (proj2 (proj2 (proj2 (proj2 (proj2 (proj2 (proj2
    (gaussian_sample_is_mean_plus_transform nat example_distribution
       example_eigenvectors example_eigenvalues [1; 2]%R
       (Gaussian.zero_matrix 2) O _)))))))) _).
  - unfold Gaussian.eigen_decomposition, Gaussian.square. simpl.
    repeat split.
    + repeat constructor.
    + repeat constructor; apply Rle_refl.
    + intros [|[|i]] [|[|j]] Hi Hj; try lia;
        unfold Gaussian.entry, Gaussian.at_; simpl; ring.
  - intros [|[|i]] [|[|j]] Hi Hj; try (simpl in *; lia); reflexivity.
Defined.

(** * Further properties *)

(** ** Matrices *)

Lemma coeff_mbuild_from (r c : nat) (f : nat -> nat -> Q) (i : nat) :
  (i < r)%nat ->
  forall j start, (j < c)%nat ->
  nth (i + j * r)
      (flat_map (fun j => map (fun i => f i j) (seq 0 r)) (seq start c)) 0 =
  f i (start + j)%nat.
Proof.
  intros Hi. induction c as [|c IH]; intros j start Hj; [lia|].
  simpl. destruct j as [|j].
  - rewrite app_nth1 by (rewrite length_map, length_seq; lia).
    rewrite Nat.add_0_r, Nat.add_0_r.
    rewrite (nth_indep _ 0 (f 0%nat start))
      by (rewrite length_map, length_seq; lia).
    rewrite (map_nth (fun i => f i start)). now rewrite seq_nth.
  - rewrite app_nth2 by (rewrite length_map, length_seq; simpl; lia).
    rewrite length_map, length_seq.
    replace (i + S j * r - r)%nat with (i + j * r)%nat by (simpl; lia).
    rewrite IH by lia. f_equal. lia.
Qed.

(** The coefficient of a built matrix, inside the matrix. *)
Lemma coeff_mbuild (r c : nat) (f : nat -> nat -> Q) (i j : nat) :
  (i < r)%nat -> (j < c)%nat -> coeff (mbuild r c f) i j = f i j.
Proof.
  intros Hi Hj. unfold coeff, mbuild. simpl.
  now rewrite coeff_mbuild_from.
Qed.


(** Every stored coefficient of a built matrix is one of the [f i j]. *)
Lemma mbuild_data (P : Q -> Prop) (r c : nat) (f : nat -> nat -> Q) :
  (forall i j, P (f i j)) -> Forall P (data (mbuild r c f)).
Proof.
  intros H. unfold mbuild. simpl. apply Forall_forall. intros x Hx.
  apply in_flat_map in Hx. destruct Hx as (j & _ & Hx).
  apply in_map_iff in Hx. destruct Hx as (i & <- & _). apply H.
Qed.

Lemma coeff_of_data (P : Q -> Prop) (M : MatrixXd) (i j : nat) :
  P 0 -> Forall P (data M) -> P (coeff M i j).
Proof.
  intros H0 H. unfold coeff.
  destruct (Nat.lt_ge_cases (i + j * rows M) (length (data M))) as [Hlt|Hge].
  - rewrite Forall_forall in H. apply H. now apply nth_In.
  - now rewrite nth_overflow.
Qed.

Lemma qsum_upto_zero (n : nat) (f : nat -> Q) :
  (forall k, f k == 0) -> qsum_upto n f == 0.
Proof.
  intros H. induction n as [|n IH]; simpl; [reflexivity|].
  rewrite IH, H. reflexivity.
Qed.

(** ** The Kalman filter *)

Lemma product_some (A B X : MatrixXd) :
  product A B = Some X -> cols A = rows B /\ X = mmul A B.
Proof.
  unfold product. destruct (Nat.eqb_spec (cols A) (rows B)); [|discriminate].
  intros [= <-]. now split.
Qed.

Lemma same_size_spec (A B : MatrixXd) :
  same_size A B = true <-> rows A = rows B /\ cols A = cols B.
Proof. unfold same_size. rewrite andb_true_iff, !Nat.eqb_eq. tauto. Qed.

Lemma sum_some (A B X : MatrixXd) :
  sum A B = Some X -> (rows A = rows B /\ cols A = cols B) /\ X = madd A B.
Proof.
  unfold sum. destruct (same_size A B) eqn:E; [|discriminate].
  intros [= <-]. split; [now apply same_size_spec|reflexivity].
Qed.

Lemma difference_some (A B X : MatrixXd) :
  difference A B = Some X ->
  (rows A = rows B /\ cols A = cols B) /\ X = msub A B.
Proof.
  unfold difference. destruct (same_size A B) eqn:E; [|discriminate].
  intros [= <-]. split; [now apply same_size_spec|reflexivity].
Qed.

(** Takes the first step of a sequence that yields a result. *)
Tactic Notation "unbind" hyp(H) "as" ident(x) ident(E) :=
  match type of H with
  | obind ?a _ = Some _ =>
    destruct a as [x|] eqn:E; cbn [obind] in H; [|discriminate H]
  end.

Section FilterProperties.

Variable inverse : MatrixXd -> option MatrixXd.
Variable c : KalmanFilter.Configuration.

(** What [update] leaves when it returns: the observation has as many
    coefficients as the observation matrix has rows, and the members are
    those that the assignments of the source compute with some gain. *)
Lemma update_returns (f f' : KalmanFilter.t) (observation : VectorXd) :
  KalmanFilter.update inverse f observation = Some f' ->
  exists gain covariance,
    length observation = rows (KalmanFilter.m_observation_matrix f) /\
    cols (KalmanFilter.m_next_state f) = 1%nat /\
    f' =
    KalmanFilter.mkFilter
      (KalmanFilter.m_observed_state_size f)
      (KalmanFilter.m_estimated_state_size f)
      (KalmanFilter.m_state_transition_matrix f)
      (KalmanFilter.m_transition_covariance f)
      (KalmanFilter.m_observation_matrix f)
      (KalmanFilter.m_observation_covariance f)
      (KalmanFilter.m_identity f)
      (madd (mmul (mmul (KalmanFilter.m_state_transition_matrix f) covariance)
                  (mtranspose (KalmanFilter.m_state_transition_matrix f)))
            (KalmanFilter.m_transition_covariance f))
      (madd (KalmanFilter.m_next_state f)
            (mmul gain
               (msub (column_vector observation)
                  (mmul (KalmanFilter.m_observation_matrix f)
                     (KalmanFilter.m_next_state f)))))
      (mmul (KalmanFilter.m_state_transition_matrix f)
         (madd (KalmanFilter.m_next_state f)
            (mmul gain
               (msub (column_vector observation)
                  (mmul (KalmanFilter.m_observation_matrix f)
                     (KalmanFilter.m_next_state f)))))).
Proof.
  unfold KalmanFilter.update. intros H.
  unbind H as projected E1. unbind H as hp E2. unbind H as hpht E3.
  unbind H as innovation_covariance E4. unbind H as inverted E5.
  unbind H as gain E6. unbind H as expected E7. unbind H as innovation E8.
  unbind H as correction E9. unbind H as state E10. unbind H as gained E11.
  unbind H as remaining E12. unbind H as covariance E13.
  unbind H as next_state E14. unbind H as fp E15. unbind H as fpft E16.
  unbind H as covariance' E17.
  apply product_some in E7, E9, E14, E15, E16.
  apply difference_some in E8. apply sum_some in E10, E17.
  destruct E7 as [_ ->], E8 as [[Hr Hc] ->], E9 as [_ ->], E10 as [_ ->],
    E14 as [_ ->], E15 as [_ ->], E16 as [_ ->], E17 as [_ ->].
  injection H as <-. exists gain, covariance. simpl in Hr, Hc.
  split; [exact Hr|]. split; [symmetry; exact Hc|]. reflexivity.
Qed.

Lemma create_consistent (f : KalmanFilter.t) :
  KalmanFilter.create c = Some f -> KalmanFilter.consistent c f.
Proof.
  unfold KalmanFilter.create.
  destruct (KalmanFilter.valid c) eqn:Hv; simpl; [|discriminate].
  intros [= <-]. apply valid_spec in Hv.
  destruct Hv as (HF & HQ & HH & HR & Hx & HP).
  unfold KalmanFilter.consistent, KalmanFilter.construct. simpl.
  repeat split; try reflexivity; try apply HP; try apply Hx; apply HF.
Qed.

Lemma predict_consistent (b : bool) (f : KalmanFilter.t) :
  KalmanFilter.consistent c f ->
  KalmanFilter.consistent c (KalmanFilter.predict b f).
Proof.
  intros (Ho & Hs & HF & HQ & HH & HR & HP & Hx & Hn & Hnext).
  assert (HFs : rows (KalmanFilter.state_transition_matrix c) =
                KalmanFilter.states c /\
                KalmanFilter.m_state_transition_matrix f =
                KalmanFilter.state_transition_matrix c).
  { split; [|assumption]. rewrite <- HF, Hnext in *. apply Hn. }
  destruct HFs as [HFr _].
  unfold KalmanFilter.consistent, KalmanFilter.predict. simpl.
  repeat split; try assumption; try apply Hn;
    try (rewrite HF; simpl; assumption).
  - destruct b; [|apply HP]. simpl. now rewrite HF.
  - destruct b; [|apply HP]. simpl. now rewrite HF.
Qed.

Lemma update_consistent (f f' : KalmanFilter.t) (observation : VectorXd) :
  KalmanFilter.consistent c f ->
  KalmanFilter.update inverse f observation = Some f' ->
  KalmanFilter.consistent c f'.
Proof.
  intros (Ho & Hs & HF & HQ & HH & HR & HP & Hx & Hn & Hnext) Hup.
  assert (HFr : rows (KalmanFilter.state_transition_matrix c) =
                KalmanFilter.states c).
  { rewrite <- HF. rewrite Hnext in Hn. apply Hn. }
  destruct (update_returns _ _ _ Hup) as (gain & covariance & _ & _ & ->).
  unfold KalmanFilter.consistent. simpl.
  repeat split; try assumption; try apply Hn;
    try (rewrite HF; simpl; assumption).
Qed.

Lemma reachable_consistent (f : KalmanFilter.t) :
  KalmanFilter.reachable inverse c f -> KalmanFilter.consistent c f.
Proof.
  induction 1 as [f Hc|f b _ IH|f obs f' _ IH Hup].
  - now apply create_consistent.
  - now apply predict_consistent.
  - now apply (update_consistent f f' obs).
Qed.

(** Whatever predictions and observations a created filter goes through, it
    keeps the matrices of its configuration, its estimate and next estimate
    stay columns of [states] coefficients, its covariance stays
    [states] x [states], and the next estimate is always the transition
    matrix times the estimate. *)
Theorem kalman_filter_stays_consistent (f : KalmanFilter.t) :
  KalmanFilter.reachable inverse c f ->
  KalmanFilter.m_state_transition_matrix f =
    KalmanFilter.state_transition_matrix c /\
  KalmanFilter.m_observation_matrix f = KalmanFilter.observation_matrix c /\
  KalmanFilter.has_shape (KalmanFilter.m_state f) (KalmanFilter.states c) 1 /\
  KalmanFilter.has_shape (KalmanFilter.m_next_state f)
    (KalmanFilter.states c) 1 /\
  KalmanFilter.has_shape (KalmanFilter.m_covariance f)
    (KalmanFilter.states c) (KalmanFilter.states c) /\
  KalmanFilter.m_next_state f =
    mmul (KalmanFilter.state_transition_matrix c) (KalmanFilter.m_state f).
Proof.
  intros Hr. apply reachable_consistent in Hr.
  destruct Hr as (Ho & Hs & HF & HQ & HH & HR & HP & Hx & Hn & Hnext).
  rewrite HF in Hnext. repeat split; try assumption; try apply Hx;
    try apply Hn; apply HP.
Qed.

Lemma iter_predict_reachable (b : bool) (f : KalmanFilter.t) (n : nat) :
  KalmanFilter.reachable inverse c f ->
  KalmanFilter.reachable inverse c (Nat.iter n (KalmanFilter.predict b) f).
Proof.
  intros Hr. induction n as [|n IH]; simpl; [assumption|].
  now apply KalmanFilter.reach_predict.
Qed.

(** After [n] predictions the estimate is the transition matrix applied [n]
    times to the estimate before them, and predictions that do not update
    the covariance leave it as it was. *)
Theorem kalman_predictions_iterate_transition
  (b : bool) (f : KalmanFilter.t) (n : nat) :
  KalmanFilter.reachable inverse c f ->
  KalmanFilter.m_state (Nat.iter n (KalmanFilter.predict b) f) =
    Nat.iter n (mmul (KalmanFilter.state_transition_matrix c))
      (KalmanFilter.m_state f) /\
  (b = false ->
   KalmanFilter.m_covariance (Nat.iter n (KalmanFilter.predict b) f) =
   KalmanFilter.m_covariance f).
Proof.
  intros Hr. split.
  - induction n as [|n IH]; [reflexivity|].
    pose proof (reachable_consistent _ (iter_predict_reachable b f n Hr))
      as (_ & _ & HF & _ & _ & _ & _ & _ & _ & Hnext).
    simpl. rewrite <- IH, <- HF. exact Hnext.
  - intros ->. induction n as [|n IH]; [reflexivity|]. simpl. exact IH.
Qed.

Lemma veq_nth (a b : VectorXd) (k : nat) :
  veq a b -> nth k a 0 == nth k b 0.
Proof.
  intros H. revert k. induction H as [|x y a b Hxy _ IH]; intros [|k]; simpl;
    try reflexivity; [exact Hxy|apply IH].
Qed.

(** When [update] returns on an observation that equals the predicted
    observation, the observation matrix times the next estimate, the new
    estimate is the former next estimate, coefficient by coefficient,
    whatever the gain is. *)
Theorem kalman_update_keeps_matching_estimate
  (f f' : KalmanFilter.t) (observation : VectorXd) (i j : nat) :
  KalmanFilter.update inverse f observation = Some f' ->
  veq observation
    (data (mmul (KalmanFilter.m_observation_matrix f)
             (KalmanFilter.m_next_state f))) ->
  (i < rows (KalmanFilter.m_next_state f))%nat ->
  (j < cols (KalmanFilter.m_next_state f))%nat ->
  coeff (KalmanFilter.m_state f') i j
  == coeff (KalmanFilter.m_next_state f) i j.
Proof.
  intros Hup Hobs Hi Hj.
  destruct (update_returns _ _ _ Hup) as (gain & covariance & Hlen & _ & ->).
  cbn [KalmanFilter.m_state].
  unfold madd at 1. rewrite coeff_mbuild by assumption.
  set (innovation := msub _ _).
  assert (Hzero : Forall (fun x => x == 0) (data innovation)).
  { apply mbuild_data. intros i' j'. unfold coeff.
    cbn [rows cols data column_vector mmul mbuild]. rewrite Hlen.
    rewrite (veq_nth _ _ _ Hobs). cbn [mmul mbuild data]. ring. }
  assert (Hcorrection : coeff (mmul gain innovation) i j == 0).
  { apply (coeff_of_data (fun x => x == 0)); [reflexivity|].
    apply mbuild_data. intros i' j'. apply qsum_upto_zero. intros k.
    rewrite (coeff_of_data (fun x => x == 0) innovation k j');
      [ring|reflexivity|exact Hzero]. }
  rewrite Hcorrection. ring.
Qed.

Lemma product_defined (A B : MatrixXd) :
  cols A = rows B -> product A B = Some (mmul A B).
Proof. intros H. unfold product. now rewrite H, Nat.eqb_refl. Qed.

Lemma sum_defined (A B : MatrixXd) :
  rows A = rows B -> cols A = cols B -> sum A B = Some (madd A B).
Proof.
  intros Hr Hc. unfold sum, same_size. now rewrite Hr, Hc, !Nat.eqb_refl.
Qed.

Lemma difference_defined (A B : MatrixXd) :
  rows A = rows B -> cols A = cols B -> difference A B = Some (msub A B).
Proof.
  intros Hr Hc. unfold difference, same_size.
  now rewrite Hr, Hc, !Nat.eqb_refl.
Qed.

Lemma reachable_shapes (f : KalmanFilter.t) :
  KalmanFilter.reachable inverse c f ->
  KalmanFilter.shapes_correct c /\
  KalmanFilter.m_identity f =
    midentity (KalmanFilter.states c) (KalmanFilter.states c).
Proof.
  induction 1 as [f Hc|f b _ IH|f obs f' _ IH Hup].
  - unfold KalmanFilter.create in Hc.
    destruct (KalmanFilter.valid c) eqn:Hv; [|discriminate].
    injection Hc as <-. split; [now apply valid_spec|reflexivity].
  - exact IH.
  - destruct (update_returns _ _ _ Hup) as (gain & covariance & _ & _ & ->).
    exact IH.
Qed.

Section Invertible.

(** The inverse that Eigen returns has the shape of the matrix. *)
Hypothesis inverse_keeps_shape :
  forall M Mi, inverse M = Some Mi -> rows Mi = rows M /\ cols Mi = cols M.

(** On a filter that a created one has become, the sizes fit in every
    product, sum and difference of [update] but, possibly, in the difference
    with the observation: [update] leaves a filter exactly when the
    observation has [observed_states] coefficients and the innovation
    covariance [H * P * H^T + R] has an inverse. *)
Theorem kalman_update_returns_iff
  (f : KalmanFilter.t) (observation : VectorXd) :
  KalmanFilter.reachable inverse c f ->
  ((exists f', KalmanFilter.update inverse f observation = Some f') <->
   length observation = KalmanFilter.observed_states c /\
   exists inverted,
     inverse
       (madd (mmul (mmul (KalmanFilter.m_observation_matrix f)
                      (KalmanFilter.m_covariance f))
                (mtranspose (KalmanFilter.m_observation_matrix f)))
          (KalmanFilter.m_observation_covariance f)) = Some inverted).
Proof.
  intros Hr. destruct (reachable_shapes f Hr) as [Hshapes Hid].
  apply reachable_consistent in Hr.
  destruct Hr as (_ & _ & HF & HQ & HH & HR & [HPr HPc] & _ & [Hnr Hnc] & _).
  destruct Hshapes as ([HFr HFc] & [HQr HQc] & [HHr HHc] & [HRr HRc] & _ & _).
  rewrite <- HF in HFr, HFc. rewrite <- HQ in HQr, HQc.
  rewrite <- HH in HHr, HHc. rewrite <- HR in HRr, HRc.
  split.
  - intros [f' Hup]. unfold KalmanFilter.update in Hup.
    unbind Hup as projected E1. unbind Hup as hp E2. unbind Hup as hpht E3.
    unbind Hup as innovation_covariance E4. unbind Hup as inverted E5.
    unbind Hup as gain E6. unbind Hup as expected E7.
    unbind Hup as innovation E8.
    apply product_some in E2, E3, E7. apply sum_some in E4.
    apply difference_some in E8.
    destruct E2 as [_ ->], E3 as [_ ->], E4 as [_ ->], E7 as [_ ->],
      E8 as [[Hlen _] _].
    cbn [rows column_vector mmul mbuild] in Hlen. split; [congruence|].
    now exists inverted.
  - intros [Hlen [inverted Hinv]].
    destruct (inverse_keeps_shape _ _ Hinv) as [Hir Hic].
    cbn [rows cols madd mmul mbuild mtranspose] in Hir, Hic.
    unfold KalmanFilter.update. rewrite Hid.
    repeat first
      [ rewrite product_defined
          by (cbn [rows cols madd msub mmul mbuild mtranspose column_vector
                   midentity];
              congruence)
      | rewrite sum_defined
          by (cbn [rows cols madd msub mmul mbuild mtranspose column_vector
                   midentity];
              congruence)
      | rewrite difference_defined
          by (cbn [rows cols madd msub mmul mbuild mtranspose column_vector
                   midentity];
              congruence)
      | rewrite Hinv
      | progress cbn [obind] ].
    eexists. reflexivity.
Qed.

End Invertible.

End FilterProperties.

(** A filter of one state, after a prediction. *)
Lemma kalman_filter_stays_consistent_witness :
  KalmanFilter.m_next_state
    (KalmanFilter.predict true
       (KalmanFilter.construct example_filter_configuration)) =
  mmul (midentity 1 1)
    (KalmanFilter.m_state
       (KalmanFilter.predict true
          (KalmanFilter.construct example_filter_configuration))).
Proof.
  refine (proj2 (proj2 (proj2 (proj2 (proj2
    (kalman_filter_stays_consistent (fun M => Some M)
       example_filter_configuration _ _)))))).
  apply KalmanFilter.reach_predict. apply KalmanFilter.reach_create.
  reflexivity.
Defined.

(** Three predictions of a filter of one state. *)
Lemma kalman_predictions_iterate_transition_witness :
  KalmanFilter.m_state
    (Nat.iter 3 (KalmanFilter.predict false)
       (KalmanFilter.construct example_filter_configuration)) =
  Nat.iter 3 (mmul (midentity 1 1)) (mkMatrix 1 1 [5]).
Proof.
  refine (proj1 (kalman_predictions_iterate_transition (fun M => Some M)
                   example_filter_configuration false _ 3 _)).
  apply KalmanFilter.reach_create. reflexivity.
Defined.

(** A filter of one state, with covariances of 1, that observes the 5 that
    it predicted: the gain is 1/2 and the estimate stays 5. *)
Lemma kalman_update_keeps_matching_estimate_witness :
  exists f',
    KalmanFilter.update example_inverse
      (KalmanFilter.construct example_noisy_configuration) [5] = Some f' /\
    coeff (KalmanFilter.m_state f') 0 0
    == coeff (KalmanFilter.m_next_state
                (KalmanFilter.construct example_noisy_configuration)) 0 0.
Proof.
  eexists. split; [vm_compute; reflexivity|].
  apply (kalman_update_keeps_matching_estimate example_inverse
           (KalmanFilter.construct example_noisy_configuration) _ [5]).
  - vm_compute. reflexivity.
  - repeat constructor.
  - simpl. lia.
  - simpl. lia.
Defined.

(** The inverse of the examples keeps the shape. *)
Lemma example_inverse_keeps_shape (M Mi : MatrixXd) :
  example_inverse M = Some Mi -> rows Mi = rows M /\ cols Mi = cols M.
Proof.
  destruct M as [[|[|r]] [|[|n]] [|x [|y l]]]; try discriminate.
  unfold example_inverse. cbn [rows cols data].
  destruct (Qeq_bool x 0); [discriminate|]. intros [= <-]. now split.
Qed.

(** The filter of one state with covariances of 1, as created: it takes an
    observation of one coefficient, and none of two. *)
Lemma kalman_update_returns_iff_witness :
  (exists f',
     KalmanFilter.update example_inverse
       (KalmanFilter.construct example_noisy_configuration) [7] = Some f') /\
  ~ (exists f',
       KalmanFilter.update example_inverse
         (KalmanFilter.construct example_noisy_configuration) [7; 8] =
       Some f').
Proof.
  pose proof (fun observation =>
    kalman_update_returns_iff example_inverse example_noisy_configuration
      example_inverse_keeps_shape
      (KalmanFilter.construct example_noisy_configuration) observation
      (KalmanFilter.reach_create example_inverse example_noisy_configuration
         (KalmanFilter.construct example_noisy_configuration) eq_refl))
    as H.
  split.
  - apply (proj2 (H [7])). split; [reflexivity|].
    eexists. vm_compute. reflexivity.
  - intros H2. apply (proj1 (H [7; 8])) in H2. destruct H2 as [H2 _].
    discriminate H2.
Defined.

(** ** The construction of the Kalman forecaster *)











Lemma factorial_34 : KalmanForecast.factorial 34 = 0%Z.
Proof. vm_compute. reflexivity. Qed.

Section EulerMatrix.

Variable time_step : Q.
Variable observed_states order : nat.

Let states := (observed_states * (order + 1))%nat.











End EulerMatrix.




(** ** Observations of the Kalman forecaster *)

Lemma column_nth (M : MatrixXd) (j i : nat) :
  nth i (column M j) 0 =
  if (i <? rows M)%nat then nth (j * rows M + i) (data M) 0 else 0.
Proof.
  unfold column. rewrite nth_firstn.
  destruct (i <? rows M)%nat; [|reflexivity]. apply nth_skipn.
Qed.

Lemma column_length (M : MatrixXd) (j : nat) :
  wf_matrix M -> (j < cols M)%nat -> length (column M j) = rows M.
Proof.
  intros Hwf Hj. unfold column, wf_matrix in *.
  rewrite length_firstn, length_skipn, Hwf. nia.
Qed.

(** Writing a column: the column written reads back, the other columns and
    the shape are kept. *)
Lemma set_col_spec (M : MatrixXd) (j : nat) (v : VectorXd) :
  wf_matrix M -> (j < cols M)%nat -> length v = rows M ->
  exists M',
    set_col M j v = Some M' /\
    rows M' = rows M /\ cols M' = cols M /\ wf_matrix M' /\
    column M' j = v /\
    forall j', (j' < cols M)%nat -> j' <> j -> column M' j' = column M j'.
Proof.
  intros Hwf Hj Hv. unfold set_col.
  replace (j <? cols M)%nat with true by (symmetry; apply Nat.ltb_lt; lia).
  rewrite Hv, Nat.eqb_refl. cbn [andb].
  eexists. split; [reflexivity|]. cbn [rows cols].
  unfold wf_matrix in Hwf.
  assert (Hjr : (j * rows M + rows M <= length (data M))%nat) by nia.
  set (r := rows M) in *.
  set (data' := firstn (j * r) (data M) ++ v ++ skipn (j * r + r) (data M)).
  assert (Hlen : length data' = length (data M)).
  { unfold data'. rewrite !length_app, length_firstn, length_skipn. lia. }
  assert (Hnth : forall k,
            nth k data' 0 =
            if (k <? j * r)%nat then nth k (data M) 0
            else if (k <? j * r + r)%nat then nth (k - j * r) v 0
                 else nth k (data M) 0).
  { intros k. unfold data'.
    destruct (Nat.ltb_spec k (j * r)) as [H1|H1].
    - rewrite app_nth1 by (rewrite length_firstn; lia).
      rewrite nth_firstn.
      now replace (k <? j * r)%nat with true
        by (symmetry; apply Nat.ltb_lt; lia).
    - rewrite app_nth2 by (rewrite length_firstn; lia).
      rewrite length_firstn.
      replace (Init.Nat.min (j * r) (length (data M))) with (j * r)%nat by lia.
      destruct (Nat.ltb_spec k (j * r + r)) as [H2|H2].
      + now rewrite app_nth1 by lia.
      + rewrite app_nth2 by lia. rewrite nth_skipn. f_equal. lia. }
  repeat split.
  - unfold wf_matrix. cbn [rows cols data]. fold data'. now rewrite Hlen.
  - apply (nth_ext _ _ 0 0).
    + unfold column. cbn [rows data]. fold r data'.
      rewrite length_firstn, length_skipn, Hlen. lia.
    + intros i Hi. rewrite column_nth. cbn [rows data]. fold r data'.
      assert (Hir : (i < r)%nat).
      { unfold column in Hi. cbn [rows data] in Hi. fold r data' in Hi.
        rewrite length_firstn in Hi. lia. }
      replace (i <? r)%nat with true by (symmetry; apply Nat.ltb_lt; lia).
      rewrite Hnth.
      replace (j * r + i <? j * r)%nat with false
        by (symmetry; apply Nat.ltb_ge; lia).
      replace (j * r + i <? j * r + r)%nat with true
        by (symmetry; apply Nat.ltb_lt; lia).
      f_equal. lia.
  - intros j' Hj' Hne. apply (nth_ext _ _ 0 0).
    + unfold column. cbn [rows data]. fold r data'.
      now rewrite !length_firstn, !length_skipn, Hlen.
    + intros i _. rewrite !column_nth. cbn [rows data]. fold r data'.
      destruct (Nat.ltb_spec i r) as [Hir|Hir]; [|reflexivity].
      rewrite Hnth.
      destruct (Nat.ltb_spec (j' * r + i) (j * r)) as [H1|H1];
        [reflexivity|].
      destruct (Nat.ltb_spec (j' * r + i) (j * r + r)) as [H2|H2];
        [|reflexivity].
      exfalso. assert (j' < j \/ j < j')%nat as [H|H] by lia; nia.
Qed.

(** A loop whose bodies carry an invariant from each index to the next. *)
Lemma for_loop_indexed {S : Type} (I : nat -> S -> Prop) (n : nat)
  (body : nat -> S -> option S) (s : S) :
  (forall i s, (i < n)%nat -> I i s ->
     exists s', body i s = Some s' /\ I (Datatypes.S i) s') ->
  I O s -> exists s', for_loop n body s = Some s' /\ I n s'.
Proof.
  intros Hbody. unfold for_loop.
  assert (H : forall len start s,
            (start + len <= n)%nat -> I start s ->
            exists s',
              fold_left
                (fun acc i =>
                   match acc with Some s' => body i s' | None => None end)
                (seq start len) (Some s) = Some s' /\ I (start + len)%nat s').
  { induction len as [|len IH]; intros start s0 Hle Hs; simpl.
    - exists s0. now rewrite Nat.add_0_r.
    - destruct (Hbody start s0) as (s1 & Hs1 & HI); [lia|exact Hs|].
      rewrite Hs1. destruct (IH (Datatypes.S start) s1) as (s2 & Hs2 & HI2);
        [lia|exact HI|].
      exists s2. split; [exact Hs2|].
      now replace (start + Datatypes.S len)%nat
        with (Datatypes.S start + len)%nat by lia. }
  intros Hs. apply (H n O s); [lia|exact Hs].
Qed.

Section ObservationProperties.

Variable inverse : MatrixXd -> option MatrixXd.
Variable get_estimation : KalmanFilter.t -> MatrixXd.
Variable get_covariance : KalmanFilter.t -> MatrixXd.
Variable set_estimation : KalmanFilter.t -> MatrixXd -> KalmanFilter.t.
Variable set_covariance : KalmanFilter.t -> MatrixXd -> KalmanFilter.t.
Variable predict_default : bool.

Variable k : KalmanForecast.t.
Variable measurement : VectorXd.
Variable time : Q.

Let update :=
  KalmanForecast.update inverse get_estimation get_covariance
    set_estimation set_covariance predict_default.

(** The correction of the filter returns, with the filter [filter]. *)
Variable filter : KalmanFilter.t.
Hypothesis filter_corrected :
  KalmanFilter.update inverse (KalmanForecast.m_filter k) measurement =
  Some filter.

Let predictor :=
  KalmanForecast.prepared_predictor get_estimation get_covariance
    set_estimation set_covariance k filter.

(** The first coefficients of the estimate of the predictor after [j]
    predictions. *)
Let predicted (j : nat) : VectorXd :=
  firstn (KalmanForecast.m_observed_states k)
    (data (get_estimation
             (Nat.iter j (KalmanFilter.predict predict_default) predictor))).

Hypothesis prediction_wf : wf_matrix (KalmanForecast.m_prediction k).
Hypothesis prediction_rows :
  rows (KalmanForecast.m_prediction k) = KalmanForecast.m_observed_states k.
Hypothesis prediction_cols :
  cols (KalmanForecast.m_prediction k) = (KalmanForecast.m_steps k + 1)%nat.
Hypothesis estimates_long_enough :
  forall j, (j <= KalmanForecast.m_steps k)%nat ->
  (KalmanForecast.m_observed_states k <=
   length (data (get_estimation
                   (Nat.iter j (KalmanFilter.predict predict_default)
                      predictor))))%nat.

Lemma head_predicted (j : nat) :
  (j <= KalmanForecast.m_steps k)%nat ->
  head (get_estimation
          (Nat.iter j (KalmanFilter.predict predict_default) predictor))
       (KalmanForecast.m_observed_states k) = Some (predicted j) /\
  length (predicted j) = KalmanForecast.m_observed_states k.
Proof.
  intros Hj. pose proof (estimates_long_enough j Hj) as Hlen.
  unfold head, predicted.
  replace (_ <=? _)%nat with true by (symmetry; apply Nat.leb_le; exact Hlen).
  split; [reflexivity|]. rewrite length_firstn. lia.
Qed.

Lemma update_records :
  exists k',
    update k measurement time = Some k' /\
    KalmanForecast.m_last_update k' = time /\
    KalmanForecast.m_filter k' = filter /\
    KalmanForecast.m_predictor k' =
      Nat.iter (KalmanForecast.m_steps k)
        (KalmanFilter.predict predict_default) predictor /\
    KalmanForecast.m_horison k' = KalmanForecast.m_horison k /\
    KalmanForecast.m_time_step k' = KalmanForecast.m_time_step k /\
    KalmanForecast.m_steps k' = KalmanForecast.m_steps k /\
    rows (KalmanForecast.m_prediction k') =
      KalmanForecast.m_observed_states k /\
    cols (KalmanForecast.m_prediction k') =
      (KalmanForecast.m_steps k + 1)%nat /\
    wf_matrix (KalmanForecast.m_prediction k') /\
    forall j, (j <= KalmanForecast.m_steps k)%nat ->
      column (KalmanForecast.m_prediction k') j = predicted j.
Proof.
  unfold update, KalmanForecast.update. rewrite filter_corrected.
  cbn [obind]. fold predictor.
  destruct (head_predicted O) as [Hhead Hlen0]; [lia|].
  simpl Nat.iter in Hhead. rewrite Hhead.
  destruct (set_col_spec (KalmanForecast.m_prediction k) O (predicted O))
    as (P0 & HP0 & Hr0 & Hc0 & Hwf0 & Hcol0 & _);
    [exact prediction_wf|lia|now rewrite prediction_rows|].
  rewrite HP0.
  set (I := fun (i : nat) (s : KalmanFilter.t * MatrixXd) =>
              fst s = Nat.iter i (KalmanFilter.predict predict_default)
                        predictor /\
              wf_matrix (snd s) /\
              rows (snd s) = KalmanForecast.m_observed_states k /\
              cols (snd s) = (KalmanForecast.m_steps k + 1)%nat /\
              forall j, (j <= i)%nat -> column (snd s) j = predicted j).
  destruct (for_loop_indexed I (KalmanForecast.m_steps k)
              (KalmanForecast.record_prediction get_estimation predict_default
                 (KalmanForecast.m_observed_states k))
              (predictor, P0)) as ([p P] & Hloop & Hp & HwfP & HrP & HcP & Hcols).
  - intros i [p P] Hi (Hp & HwfP & HrP & HcP & Hcols). simpl in *.
    unfold KalmanForecast.record_prediction. simpl. rewrite Hp.
    destruct (head_predicted (S i)) as [Hh Hl]; [lia|].
    simpl Nat.iter in Hh. rewrite Hh.
    destruct (set_col_spec P (i + 1) (predicted (S i)))
      as (P' & HP' & Hr' & Hc' & Hwf' & Hcol' & Hother);
      [exact HwfP|lia|now rewrite HrP|].
    rewrite HP'. eexists. split; [reflexivity|]. unfold I. simpl.
    repeat split; try assumption; try congruence.
    intros j Hj. destruct (Nat.eq_dec j (S i)) as [->|Hne].
    + rewrite <- Hcol'. f_equal. lia.
    + rewrite Hother by lia. apply Hcols. lia.
  - unfold I. simpl. repeat split; try assumption; try congruence.
    intros j Hj. replace j with O by lia. exact Hcol0.
  - rewrite Hloop. eexists. split; [reflexivity|]. simpl in *.
    repeat split; assumption.
Qed.

(** When the correction of the filter returns, [update(measurement, time)]
    returns: it has corrected the filter once and does not touch it again;
    it leaves the predictor [steps] predictions ahead of the state it was
    prepared in, and column [j] of the prediction buffer holds the first
    [observed_states] coefficients of the predictor's estimate after [j]
    predictions, for every [j] up to [steps].  The time of the last update
    is [time] and the shape of the buffer is kept. *)
Theorem kalman_update_records_predictions :
  exists k',
    update k measurement time = Some k' /\
    KalmanForecast.m_last_update k' = time /\
    KalmanForecast.m_filter k' = filter /\
    KalmanForecast.m_predictor k' =
      Nat.iter (KalmanForecast.m_steps k)
        (KalmanFilter.predict predict_default) predictor /\
    rows (KalmanForecast.m_prediction k') =
      KalmanForecast.m_observed_states k /\
    cols (KalmanForecast.m_prediction k') =
      (KalmanForecast.m_steps k + 1)%nat /\
    forall j, (j <= KalmanForecast.m_steps k)%nat ->
      column (KalmanForecast.m_prediction k') j = predicted j.
Proof.
  destruct update_records
    as (k' & Hup & Ht & Hf & Hp & _ & _ & _ & Hr & Hc & _ & Hcols).
  exists k'. repeat split; assumption.
Qed.

(** No time after the update: the number of steps is zero, exactly. *)
Lemma steps_at_update (x y : Q) :
  ~ y == 0 ->
  (let* elapsed := Double.sub x x in
   let* t := Double.div elapsed y in
   let* lower := Double.to_int t in
   Some (t, lower)) = Some (0, 0%Z).
Proof.
  intros Hy. unfold Double.sub, Double.round.
  replace (Qnum (x - x)) with 0%Z
    by (destruct x as [xn xd]; unfold Qminus, Qplus, Qopp; simpl; ring).
  cbn [obind]. unfold Double.div.
  destruct (Qeq_bool y 0) eqn:E; [apply Qeq_bool_iff in E; contradiction|].
  reflexivity.
Qed.

Lemma interpolate_at_zero (s : Q) (a b : VectorXd) :
  s == 0 -> length a = length b ->
  veq (vadd (vscale (1 - s) a) (vscale s b)) a.
Proof.
  intros Hs. revert b. unfold veq, vadd, vscale.
  induction a as [|x a IH]; intros [|y b] Hlen; try discriminate;
    simpl; constructor.
  - rewrite Hs. ring.
  - apply IH. simpl in Hlen. lia.
Qed.

(** Right after an [update(measurement, time)] that returns, and as long
    as [time] is not after [m_horison], the time step is not zero and there
    is a step, [forecast(time)] returns the estimate that the update
    recorded in the first column. *)
Theorem kalman_forecast_at_update_time (ndebug : bool) :
  time <= KalmanForecast.m_horison k ->
  ~ KalmanForecast.m_time_step k == 0 ->
  (1 <= KalmanForecast.m_steps k)%nat ->
  exists k' r,
    update k measurement time = Some k' /\
    KalmanForecast.forecast ndebug k' time = Some r /\
    veq r (predicted O).
Proof.
  intros Hhor Hdt Hsteps.
  destruct update_records
    as (k' & Hup & Ht & Hf & Hp & Hh & Hdt' & Hs & Hr & Hc & Hwf & Hcols).
  exists k'. unfold KalmanForecast.forecast.
  rewrite Ht, Hh, Hdt'.
  assert (H1 : Qltb time time = false) by (apply Qltb_ge, Qle_refl).
  assert (H2 : Qltb (KalmanForecast.m_horison k) time = false)
    by now apply Qltb_ge.
  rewrite H1, H2, andb_false_r.
  pose proof (steps_at_update time (KalmanForecast.m_time_step k) Hdt) as H0.
  destruct (Double.sub time time) as [elapsed|]; [|discriminate H0].
  cbn [obind] in *.
  destruct (Double.div elapsed (KalmanForecast.m_time_step k)) as [t|];
    [|discriminate H0].
  cbn [obind] in *.
  destruct (Double.to_int t) as [lower|]; [|discriminate H0].
  cbn [obind] in *. injection H0 as -> ->.
  rewrite (col_inside _ 0) by lia.
  change (0 + 1)%Z with (Z.of_nat 1). rewrite col_inside by lia.
  eexists. split; [exact Hup|]. split; [reflexivity|].
  rewrite <- (Hcols O) by lia.
  apply interpolate_at_zero.
  - reflexivity.
  - rewrite !column_length by (try assumption; lia). reflexivity.
Qed.

End ObservationProperties.

(** A forecaster of one coordinate and three steps, whose filter has
    covariances of 1, observes 7 at time 2: the gain is 1/2 and the filter
    estimates 6. *)
Lemma kalman_update_records_predictions_witness :
  exists k',
    KalmanForecast.update example_inverse KalmanFilter.m_state
      KalmanFilter.m_covariance example_set_estimation
      example_set_covariance true example_noisy_forecast [7] 2 = Some k' /\
    KalmanForecast.m_last_update k' = 2 /\
    veq (column (KalmanForecast.m_prediction k') 0) [6].
Proof.
  destruct (kalman_update_records_predictions example_inverse
              KalmanFilter.m_state KalmanFilter.m_covariance
              example_set_estimation example_set_covariance true
              example_noisy_forecast [7] 2
              example_corrected_filter)
    as (k' & Hup & Ht & _ & _ & _ & _ & Hcols).
  - vm_compute. reflexivity.
  - reflexivity.
  - reflexivity.
  - reflexivity.
  - intros j Hj. simpl in Hj.
    do 4 (destruct j as [|j]; [vm_compute; lia|]). lia.
  - exists k'. split; [assumption|]. split; [assumption|].
    rewrite (Hcols O) by (simpl; lia).
    constructor; [reflexivity|constructor].
Defined.

(** The same forecaster, asked at time 2 right after the observation. *)
Lemma kalman_forecast_at_update_time_witness :
  exists k' r,
    KalmanForecast.update example_inverse KalmanFilter.m_state
      KalmanFilter.m_covariance example_set_estimation
      example_set_covariance true example_noisy_forecast [7] 2 = Some k' /\
    KalmanForecast.forecast false k' 2 = Some r.
Proof.
  destruct (kalman_forecast_at_update_time example_inverse
              KalmanFilter.m_state KalmanFilter.m_covariance
              example_set_estimation example_set_covariance true
              example_noisy_forecast [7] 2
              example_corrected_filter)
    with (ndebug := false) as (k' & r & Hup & Hf & Hr).
  - vm_compute. reflexivity.
  - reflexivity.
  - reflexivity.
  - reflexivity.
  - intros j Hj. simpl in Hj.
    do 4 (destruct j as [|j]; [vm_compute; lia|]). lia.
  - vm_compute. discriminate.
  - vm_compute. discriminate.
  - simpl. lia.
  - exists k', r. split; assumption.
Defined.

(** ** More on the moving-average forecaster *)

Lemma clear_singleton (w : Q) (e : Q * VectorXd) (a : VectorXd) (time : Q) :
  AverageForecast.clear_old_measurements
    (AverageForecast.mkForecast w [e] a) time =
  Some (AverageForecast.mkForecast w [e] a).
Proof.
  unfold AverageForecast.clear_old_measurements.
  cbn [AverageForecast.m_buffer AverageForecast.m_window
       AverageForecast.m_average AverageForecast.upper_bound length].
  destruct (Qltb (time - w) (fst e)); reflexivity.
Qed.

(** [AverageForecast::create] fails exactly on a negative window.  The
    forecaster that it returns forecasts zero, and an [update(time)] without
    an observation leaves it as it is, whatever the time. *)
Theorem average_create_fails_iff_window_negative
  (c : AverageForecast.Configuration) :
  (AverageForecast.create c = None <-> AverageForecast.window c < 0) /\
  (forall f, AverageForecast.create c = Some f ->
     (forall t, AverageForecast.forecast f t =
                vzero (AverageForecast.states c)) /\
     (forall time, AverageForecast.update_time f time = Some f)).
Proof.
  unfold AverageForecast.create.
  destruct (Qltb (AverageForecast.window c) 0) eqn:E.
  - apply Qltb_lt in E. split; [tauto|]. intros f H. discriminate.
  - apply Qltb_ge in E. split.
    + split; [discriminate|]. intros H. exfalso. revert E.
      now apply Qlt_not_le.
    + intros f [= <-]. split; [reflexivity|]. intros time.
      unfold AverageForecast.update_time, AverageForecast.construct.
      rewrite clear_singleton. cbn [AverageForecast.and_then].
      unfold AverageForecast.update_average.
      cbn [AverageForecast.m_buffer AverageForecast.m_window fold_left snd
           length obind].
      f_equal. f_equal. unfold vdiv, vzero. rewrite map_repeat. reflexivity.
Qed.

Section AverageComposition.

Import AverageForecast.

Variable c : Configuration.

Lemma reachable_window_nonneg (f : t) : reachable c f -> 0 <= window c.
Proof.
  induction 1 as [f Hc| |]; try assumption.
  unfold create in Hc. destruct (Qltb (window c) 0) eqn:E; [discriminate|].
  now apply Qltb_ge.
Qed.

Lemma filter_newer_skipn (cutoff : Q) (buffer : list (Q * VectorXd)) :
  sorted buffer ->
  filter (fun e => Qltb cutoff (fst e)) buffer =
  skipn (upper_bound buffer cutoff) buffer.
Proof.
  induction buffer as [|e rest IH]; intros Hs; [reflexivity|].
  pose proof (upper_bound_newer (e :: rest) cutoff Hs) as Hnew.
  simpl in *. destruct (Qltb cutoff (fst e)) eqn:E.
  - simpl in Hnew. inversion Hnew as [|? ? _ Hrest]; subst.
    cbn [skipn]. f_equal.
    apply forallb_filter_id. apply forallb_forall. intros x Hx.
    rewrite Forall_forall in Hrest. apply Qltb_lt. now apply Hrest.
  - apply IH. apply Hs.
Qed.

(** What is retained, read as a filter. *)
Lemma retained_filter (cutoff : Q) (buffer : list (Q * VectorXd)) :
  buffer <> [] -> sorted buffer ->
  retained cutoff buffer =
  match filter (fun e => Qltb cutoff (fst e)) buffer with
  | [] => [last buffer (0, [])]
  | kept => kept
  end.
Proof.
  intros Hne Hs. rewrite retained_skipn by assumption.
  rewrite filter_newer_skipn by assumption. cbv zeta.
  pose proof (upper_bound_le buffer cutoff) as Hle.
  destruct (Nat.eqb_spec (upper_bound buffer cutoff) (length buffer)) as [E|E].
  - rewrite E, skipn_all.
    now apply (skipn_last_one ((0, []) : Q * VectorXd)).
  - destruct (skipn (upper_bound buffer cutoff) buffer) eqn:Hk; [|reflexivity].
    exfalso. apply (f_equal (@length _)) in Hk.
    rewrite length_skipn in Hk. simpl in Hk. lia.
Qed.

Lemma filter_newer_twice (c1 c2 : Q) (buffer : list (Q * VectorXd)) :
  c1 <= c2 ->
  filter (fun e => Qltb c2 (fst e))
         (filter (fun e => Qltb c1 (fst e)) buffer) =
  filter (fun e => Qltb c2 (fst e)) buffer.
Proof.
  intros Hc. induction buffer as [|e rest IH]; [reflexivity|].
  simpl. destruct (Qltb c1 (fst e)) eqn:E1; simpl.
  - destruct (Qltb c2 (fst e)); [f_equal|]; exact IH.
  - replace (Qltb c2 (fst e)) with false; [exact IH|].
    symmetry. apply Qltb_ge. apply Qltb_ge in E1.
    eapply Qle_trans; eassumption.
Qed.

Lemma filter_none_newer (cutoff : Q) (buffer : list (Q * VectorXd)) :
  Forall (fun e => fst e <= cutoff) buffer ->
  filter (fun e => Qltb cutoff (fst e)) buffer = [].
Proof.
  induction 1 as [|e rest He _ IH]; [reflexivity|].
  simpl. apply Qltb_ge in He. now rewrite He.
Qed.

Lemma retained_twice (c1 c2 : Q) (buffer : list (Q * VectorXd)) :
  buffer <> [] -> sorted buffer -> c1 <= c2 ->
  retained c2 (retained c1 buffer) = retained c2 buffer.
Proof.
  intros Hne Hs Hc.
  destruct (retained_facts c1 buffer Hne Hs) as (Hne1 & Hs1 & Hlast & _ & _).
  rewrite (retained_filter c2 (retained c1 buffer)) by assumption.
  rewrite Hlast, (retained_filter c2 buffer) by assumption.
  rewrite (retained_filter c1 buffer) by assumption.
  destruct (filter (fun e => Qltb c1 (fst e)) buffer) as [|e kept] eqn:Hk.
  - (* nothing is newer than the first cutoff *)
    assert (Hnone : filter (fun e => Qltb c2 (fst e)) buffer = []).
    { rewrite <- (filter_newer_twice c1 c2) by assumption.
      now rewrite Hk. }
    rewrite Hnone. simpl.
    destruct (Qltb c2 (fst (last buffer (0, [])))); reflexivity.
  - rewrite <- Hk, filter_newer_twice by assumption. reflexivity.
Qed.

Lemma update_average_ignores_average (w : Q) (b : list (Q * VectorXd))
  (a1 a2 : VectorXd) :
  update_average (mkForecast w b a1) = update_average (mkForecast w b a2).
Proof. reflexivity. Qed.

Lemma update_time_as_retained (f : t) (time : Q) :
  m_buffer f <> [] -> sorted (m_buffer f) ->
  update_time f time =
  update_average
    (mkForecast (m_window f) (retained (time - m_window f) (m_buffer f)) []).
Proof.
  intros Hne Hs. unfold update_time.
  rewrite clear_old_measurements_retained by assumption. reflexivity.
Qed.

(** Two updates without an observation, at times that do not decrease,
    leave the forecaster that the second alone would leave; in particular
    repeating an update changes nothing. *)
Theorem average_update_time_composes (f : t) (t1 t2 : Q) :
  reachable c f -> t1 <= t2 ->
  and_then (update_time f t1) (fun f1 => update_time f1 t2) =
  update_time f t2.
Proof.
  intros Hr Ht. apply reachable_invariant in Hr.
  destruct (update_time_step c f t1 Hr) as (f1 & Hup1 & Hb1 & Hinv1).
  rewrite Hup1. simpl.
  destruct Hr as [Hw Hne Hs _ _ _]. destruct Hinv1 as [Hw1 Hne1 Hs1 _ _ _].
  rewrite (update_time_as_retained f1) by assumption.
  rewrite (update_time_as_retained f) by assumption.
  rewrite Hb1, Hw1, Hw. rewrite retained_twice; try assumption; [reflexivity|].
  unfold Qminus. now apply Qplus_le_l.
Qed.

Lemma veq_refl_of (a : VectorXd) : veq a a.
Proof. induction a; constructor; [reflexivity|assumption]. Qed.

Lemma veq_trans_of (a b d : VectorXd) : veq a b -> veq b d -> veq a d.
Proof.
  intros H. revert d. induction H as [|x y a b Hxy _ IH]; intros d Hd;
    inversion Hd; subst; constructor.
  - etransitivity; eassumption.
  - now apply IH.
Qed.

Lemma mean_of_one (v : VectorXd) :
  veq (arithmetic_mean (length v) [v]) v.
Proof.
  unfold arithmetic_mean. simpl.
  assert (H : forall o (w : VectorXd),
            (forall j, (j < length w)%nat -> nth j w 0 == nth (o + j) v 0) ->
            veq (map (fun j => qsum [nth j v 0] / inject_Z 1)
                     (seq o (length w))) w).
  { intros o w. revert o. induction w as [|x w IH]; intros o Hw; simpl;
      constructor.
    - specialize (Hw O). simpl in Hw. rewrite Nat.add_0_r in Hw.
      rewrite <- Hw by lia. unfold qsum. simpl. field.
    - apply IH. intros j Hj. specialize (Hw (S j)). simpl in Hw.
      rewrite Nat.add_succ_r in Hw. apply Hw. lia. }
  apply (H O v). intros j _. reflexivity.
Qed.

(** An observation that comes a full window or more after the newest
    buffered one replaces the whole buffer, and the forecast is the
    observation. *)
Theorem average_late_observation_replaces_buffer
  (f : t) (measurement : VectorXd) (time : Q) :
  reachable c f -> length measurement = states c ->
  fst (last (m_buffer f) (0, [])) + window c <= time ->
  exists f',
    update f measurement time = Some f' /\
    m_buffer f' = [(time, measurement)] /\
    forall t, veq (forecast f' t) measurement.
Proof.
  intros Hr Hm Hlate. pose proof (reachable_window_nonneg f Hr) as Hw0.
  apply reachable_invariant in Hr.
  destruct (update_step c f measurement time Hr Hm) as (f' & Hup & Hb & Hinv).
  destruct Hr as [Hw Hne Hs _ _ _].
  assert (Hnew : Qltb time (fst (last (m_buffer f) (0, []))) = false).
  { apply Qltb_ge. eapply Qle_trans; [|exact Hlate].
    rewrite <- (Qplus_0_r (fst _)) at 1. now apply Qplus_le_r. }
  rewrite Hnew in Hb.
  assert (Hbuf : m_buffer f' = [(time, measurement)]).
  { rewrite Hb. rewrite retained_filter.
    - rewrite filter_app.
      replace (filter _ (m_buffer f)) with (@nil (Q * VectorXd)).
      + simpl. rewrite last_last.
        destruct (Qltb (time - window c) time); reflexivity.
      + symmetry. apply filter_none_newer.
        eapply Forall_impl; [|exact (sorted_le_last _ Hs)]. simpl.
        intros e He. eapply Qle_trans; [exact He|].
        apply (Qplus_le_l _ _ (window c)).
        eapply Qle_trans; [exact Hlate|].
        unfold Qminus.
        rewrite <- Qplus_assoc, (Qplus_comm (- _)), Qplus_opp_r, Qplus_0_r.
        apply Qle_refl.
    - now destruct (m_buffer f).
    - apply sorted_snoc; [assumption|].
      pose proof (sorted_le_last _ Hs) as Hl.
      eapply Forall_impl; [|exact Hl]. simpl. intros e He.
      eapply Qle_trans; [exact He|]. now apply Qltb_ge. }
  exists f'. split; [exact Hup|]. split; [exact Hbuf|].
  intros t. destruct Hinv as [_ _ _ _ _ Hav]. unfold forecast.
  eapply veq_trans_of; [exact Hav|]. rewrite Hbuf. simpl.
  rewrite <- Hm. apply mean_of_one.
Qed.

(** In every state that the forecaster reaches the window is not negative,
    the buffer is sorted by timestamp, and either it has one element or
    every timestamp in it is within less than a window before the newest. *)
Theorem average_buffer_sorted_within_window (f : t) :
  reachable c f ->
  0 <= window c /\ m_window f = window c /\
  sorted (m_buffer f) /\
  Forall (fun e => length (snd e) = states c) (m_buffer f) /\
  (length (m_buffer f) = 1%nat \/
   Forall (fun e => fst (last (m_buffer f) (0, [])) - window c < fst e /\
                    fst e <= fst (last (m_buffer f) (0, [])))
          (m_buffer f)).
Proof.
  intros Hr. pose proof (reachable_window_nonneg f Hr) as Hw0.
  apply reachable_invariant in Hr.
  destruct Hr as [Hw Hne Hs Hspan Hd _].
  repeat split; try assumption.
  destruct Hspan as [H1|Hnew]; [now left|right].
  pose proof (sorted_le_last _ Hs) as Hl.
  rewrite Forall_forall in *. intros e He. split; [now apply Hnew|now apply Hl].
Qed.

End AverageComposition.

(** A forecaster as created, updated at time 2 and then at time 3. *)
Lemma average_update_time_composes_witness :
  AverageForecast.and_then (AverageForecast.update_time example_average 2)
    (fun f1 => AverageForecast.update_time f1 3) =
  AverageForecast.update_time example_average 3.
Proof.
  apply (average_update_time_composes example_average_configuration).
  - apply AverageForecast.reach_create. reflexivity.
  - vm_compute. discriminate.
Defined.

(** A forecaster as created, with a window of 1, observes (2, 4) at
    time 5. *)
Lemma average_late_observation_replaces_buffer_witness :
  exists f',
    AverageForecast.update example_average [2; 4] 5 = Some f' /\
    AverageForecast.m_buffer f' = [(5, [2; 4])] /\
    forall t, veq (AverageForecast.forecast f' t) [2; 4].
Proof.
  apply (average_late_observation_replaces_buffer
           example_average_configuration).
  - apply AverageForecast.reach_create. reflexivity.
  - reflexivity.
  - vm_compute. discriminate.
Defined.

(** The buffer of a forecaster as created. *)
Lemma average_buffer_sorted_within_window_witness :
  AverageForecast.sorted (AverageForecast.m_buffer example_average).
Proof.
  refine (proj1 (proj2 (proj2 (average_buffer_sorted_within_window
                                 example_average_configuration
                                 example_average _)))).
  apply AverageForecast.reach_create. reflexivity.
Defined.

(** ** The terms of the assisted manipulation objective *)

Section ObjectiveTerms.

Variable Dynamics : Type.
Variable get_power : Dynamics -> Q.
Variable jacobian : Dynamics -> MatrixXd.
Variable reach_offset : Dynamics -> Q.
Variable determinant : MatrixXd -> Q.
Variable sqrt : Q -> Q.
Variable JOINTS : nat.
Variable position : VectorXd -> nat -> Q.

Let power_cost := AssistedManipulation.power_cost Dynamics get_power.
Let manipulability_cost :=
  AssistedManipulation.manipulability_cost Dynamics jacobian determinant sqrt.
Let joint_limit_cost := AssistedManipulation.joint_limit_cost JOINTS position.
Let get_cost :=
  AssistedManipulation.get_cost Dynamics get_power jacobian reach_offset
    determinant sqrt JOINTS position.
Let run :=
  AssistedManipulation.run Dynamics get_power jacobian reach_offset
    determinant sqrt JOINTS position.



Lemma square_nonneg (x : Q) : 0 <= x ^ 2.
Proof. change (x ^ 2) with (x * x). nra. Qed.

(** The volume that [manipulability_cost] divides by is never below
    [1e-10]. *)
Lemma clipped_volume (v : Q) :
  AssistedManipulation.clip <=
  (if Qltb v AssistedManipulation.clip then AssistedManipulation.clip else v).
Proof.
  destruct (Qltb v AssistedManipulation.clip) eqn:E.
  - apply Qle_refl.
  - now apply Qltb_ge.
Qed.

(** The cost of a volume clipped at [1e-10]. *)
Lemma clipped_cost_bounded (q v : Q) :
  0 <= q ->
  let volume :=
    if Qltb v AssistedManipulation.clip then AssistedManipulation.clip
    else v in
  0 <= q * (1 / volume) ^ 2 /\
  q * (1 / volume) ^ 2 <= q * inject_Z (10 ^ 20).
Proof.
  intros Hq. cbv zeta.
  pose proof (clipped_volume v) as Hv.
  set (w := if Qltb _ _ then _ else _) in *.
  assert (Hclip : 0 < AssistedManipulation.clip) by reflexivity.
  assert (Hvpos : 0 < w) by (eapply Qlt_le_trans; eassumption).
  assert (Hinv : 0 <= 1 / w /\ 1 / w <= inject_Z (10 ^ 10)).
  { split.
    - apply Qle_shift_div_l; [assumption|]. lra.
    - apply Qle_shift_div_r; [assumption|].
      assert (inject_Z (10 ^ 10) * AssistedManipulation.clip == 1)
        by reflexivity.
      assert (inject_Z (10 ^ 10) * AssistedManipulation.clip <=
              inject_Z (10 ^ 10) * w).
      { apply Qmult_le_l; [reflexivity|assumption]. }
      lra. }
  destruct Hinv as [H0 H1].
  set (x := 1 / w) in *.
  assert (Hsq : 0 <= x ^ 2 /\ x ^ 2 <= inject_Z (10 ^ 20)).
  { change (x ^ 2) with (x * x). split; [nra|].
    assert (inject_Z (10 ^ 20) == inject_Z (10 ^ 10) * inject_Z (10 ^ 10))
      by reflexivity.
    assert (0 <= inject_Z (10 ^ 10)) by (vm_compute; discriminate).
    nra. }
  destruct Hsq as [Hs0 Hs1].
  set (y := x ^ 2) in *. split; [nra|].
  rewrite (Qmult_comm _ y), (Qmult_comm _ (inject_Z (10 ^ 20))).
  now apply Qmult_le_compat_r.
Qed.

(** With a nonnegative factor: when the determinant of [J * J^T] comes out
    nonnegative, the manipulability cost is a number between zero and the
    factor times [1e20], whatever the square root is, because the volume is
    clipped at [1e-10] before the division; when the determinant comes out
    negative, the clip does not apply and the cost is NaN. *)
Theorem manipulability_cost_bounded
  (f : AssistedManipulation.t) (d : Dynamics) :
  0 <= AssistedManipulation.quadratic_cost
         (AssistedManipulation.minimum_manipulability
            (AssistedManipulation.m_configuration f)) ->
  (0 <= determinant (mmul (jacobian d) (mtranspose (jacobian d))) ->
   exists cost,
     manipulability_cost f d = Some cost /\
     0 <= cost /\
     cost <=
       AssistedManipulation.quadratic_cost
         (AssistedManipulation.minimum_manipulability
            (AssistedManipulation.m_configuration f)) *
       inject_Z (10 ^ 20)) /\
  (determinant (mmul (jacobian d) (mtranspose (jacobian d))) < 0 ->
   manipulability_cost f d = None).
Proof.
  intros Hq. unfold manipulability_cost,
    AssistedManipulation.manipulability_cost. split.
  - intros Hdet. apply Qltb_ge in Hdet. rewrite Hdet.
    eexists. split; [reflexivity|].
    exact (clipped_cost_bounded _ _ Hq).
  - intros Hdet. apply Qltb_lt in Hdet. now rewrite Hdet.
Qed.

(** The bodies of the loop of [joint_limit_cost] never lower the cost. *)
Lemma fold_never_lowers (body : Q -> nat -> Q) (l : list nat) :
  (forall cost i, 0 <= cost -> cost <= body cost i) ->
  forall a, 0 <= a -> a <= fold_left body l a.
Proof.
  intros Hbody. induction l as [|i l IH]; intros a Ha; simpl.
  - apply Qle_refl.
  - eapply Qle_trans; [apply (Hbody a i Ha)|]. apply IH.
    eapply Qle_trans; [exact Ha|apply (Hbody a i Ha)].
Qed.

Lemma fold_reaches_term (body : Q -> nat -> Q) (l : list nat)
  (i : nat) (term : Q) :
  (forall cost j, 0 <= cost -> cost <= body cost j) ->
  (forall cost, 0 <= cost -> term <= body cost i) ->
  In i l ->
  forall a, 0 <= a -> term <= fold_left body l a.
Proof.
  intros Hbody Hterm. induction l as [|j l IH]; intros Hin a Ha;
    [contradiction|].
  simpl.
  assert (Hnext : 0 <= body a j)
    by (eapply Qle_trans; [exact Ha|apply (Hbody a j Ha)]).
  destruct Hin as [->|Hin].
  - eapply Qle_trans; [apply (Hterm a Ha)|].
    now apply fold_never_lowers.
  - now apply IH.
Qed.

Lemma fold_unchanged (body : Q -> nat -> Q) (l : list nat) :
  (forall cost i, In i l -> body cost i = cost) ->
  forall a, fold_left body l a = a.
Proof.
  induction l as [|i l IH]; intros Hbody a; [reflexivity|].
  simpl. rewrite Hbody by now left. apply IH.
  intros cost j Hj. apply Hbody. now right.
Qed.

Lemma nth_nonnegative (a : list AssistedManipulation.QuadraticCost) (i : nat) :
  Forall AssistedManipulation.nonnegative a ->
  AssistedManipulation.nonnegative (AssistedManipulation.entry a i).
Proof.
  intros H. unfold AssistedManipulation.entry.
  destruct (Nat.lt_ge_cases i (length a)) as [Hi|Hi].
  - rewrite Forall_forall in H. apply H. now apply nth_In.
  - rewrite nth_overflow by assumption. split; apply Qle_refl.
Qed.

Section JointLimits.

Variable f : AssistedManipulation.t.
Variable state : VectorXd.

Let lower (i : nat) :=
  AssistedManipulation.entry
    (AssistedManipulation.lower_joint_limit
       (AssistedManipulation.m_configuration f)) i.
Let upper (i : nat) :=
  AssistedManipulation.entry
    (AssistedManipulation.upper_joint_limit
       (AssistedManipulation.m_configuration f)) i.

(** One turn of the loop of [joint_limit_cost]. *)
Let body (cost : Q) (i : nat) : Q :=
  if Qltb (position state i) (AssistedManipulation.limit (lower i)) then
    cost + (AssistedManipulation.constant_cost (lower i) +
            AssistedManipulation.quadratic_cost (lower i) *
            (AssistedManipulation.limit (lower i) - position state i) ^ 2)
  else if Qltb (AssistedManipulation.limit (upper i)) (position state i) then
    cost + (AssistedManipulation.constant_cost (upper i) +
            AssistedManipulation.quadratic_cost (lower i) *
            (position state i - AssistedManipulation.limit (upper i)) ^ 2)
  else cost.

Lemma joint_limit_cost_as_fold :
  joint_limit_cost f state = fold_left body (seq 0 JOINTS) 0.
Proof. reflexivity. Qed.

Hypothesis costs_nonnegative :
  AssistedManipulation.nonnegative_costs
    (AssistedManipulation.m_configuration f).

Lemma body_never_lowers (cost : Q) (i : nat) :
  0 <= cost -> cost <= body cost i.
Proof.
  intros Hc. destruct costs_nonnegative as (_ & _ & Hl & Hu).
  destruct (nth_nonnegative _ i Hl) as [Hlc Hlq].
  destruct (nth_nonnegative _ i Hu) as [Huc _].
  fold (lower i) in Hlc, Hlq. fold (upper i) in Huc.
  unfold body.
  pose proof (square_nonneg
    (AssistedManipulation.limit (lower i) - position state i)).
  pose proof (square_nonneg
    (position state i - AssistedManipulation.limit (upper i))).
  destruct (Qltb _ _); [nra|]. destruct (Qltb _ _); [nra|apply Qle_refl].
Qed.

(** With nonnegative costs in the configuration: the joint limit cost is
    not negative; it is zero when every joint is within its two limits; and
    a joint below its lower limit, or above its upper limit and not below
    the lower, costs at least the constant cost of that limit. *)
Theorem joint_limit_cost_zero_within_limits :
  0 <= joint_limit_cost f state /\
  ((forall i, (i < JOINTS)%nat ->
      AssistedManipulation.limit (lower i) <= position state i /\
      position state i <= AssistedManipulation.limit (upper i)) ->
   joint_limit_cost f state = 0) /\
  (forall i, (i < JOINTS)%nat ->
     position state i < AssistedManipulation.limit (lower i) ->
     AssistedManipulation.constant_cost (lower i) <=
     joint_limit_cost f state) /\
  (forall i, (i < JOINTS)%nat ->
     AssistedManipulation.limit (lower i) <= position state i ->
     AssistedManipulation.limit (upper i) < position state i ->
     AssistedManipulation.constant_cost (upper i) <=
     joint_limit_cost f state).
Proof.
  rewrite joint_limit_cost_as_fold.
  destruct costs_nonnegative as (_ & _ & Hl & Hu).
  split; [|split; [|split]].
  - apply fold_never_lowers; [apply body_never_lowers|apply Qle_refl].
  - intros Hin. apply fold_unchanged. intros cost i Hi.
    apply in_seq in Hi. destruct (Hin i) as [H1 H2]; [lia|].
    unfold body. apply Qltb_ge in H1, H2. now rewrite H1, H2.
  - intros i Hi Hlow.
    apply (fold_reaches_term body _ i);
      [apply body_never_lowers| |apply in_seq; lia|apply Qle_refl].
    intros cost Hc. unfold body. apply Qltb_lt in Hlow. rewrite Hlow.
    destruct (nth_nonnegative _ i Hl) as [Hlc Hlq].
    fold (lower i) in Hlc, Hlq.
    pose proof (square_nonneg
      (AssistedManipulation.limit (lower i) - position state i)).
    nra.
  - intros i Hi Hlow Hup.
    apply (fold_reaches_term body _ i);
      [apply body_never_lowers| |apply in_seq; lia|apply Qle_refl].
    intros cost Hc. unfold body. apply Qltb_ge in Hlow. apply Qltb_lt in Hup.
    rewrite Hlow, Hup.
    destruct (nth_nonnegative _ i Hl) as [Hlc Hlq].
    fold (lower i) in Hlc, Hlq.
    pose proof (square_nonneg
      (position state i - AssistedManipulation.limit (upper i))).
    nra.
Qed.

End JointLimits.

End ObjectiveTerms.

Section ObjectiveCost.

Variable Dynamics : Type.
Variable get_power : Dynamics -> Q.
Variable jacobian : Dynamics -> MatrixXd.
Variable reach_offset : Dynamics -> Q.
Variable determinant : MatrixXd -> Q.
Variable sqrt : Q -> Q.
Variable JOINTS : nat.
Variable position : VectorXd -> nat -> Q.

Let get_cost :=
  AssistedManipulation.get_cost Dynamics get_power jacobian reach_offset
    determinant sqrt JOINTS position.
Let run :=
  AssistedManipulation.run Dynamics get_power jacobian reach_offset
    determinant sqrt JOINTS position.

Variable configuration : AssistedManipulation.Configuration.

Hypothesis costs_nonnegative :
  AssistedManipulation.nonnegative_costs configuration.








End ObjectiveCost.


(** The example objective with its first joint at 3, above the limit of 1. *)
Lemma joint_limit_cost_zero_within_limits_witness :
  0 <= AssistedManipulation.joint_limit_cost 2 (fun state i => nth i state 0)
         (AssistedManipulation.construct example_objective_configuration 0)
         [3; 0].
Proof.
  refine (proj1 (joint_limit_cost_zero_within_limits 2
                   (fun state i => nth i state 0)
                   (AssistedManipulation.construct
                      example_objective_configuration 0) [3; 0] _)).
  unfold AssistedManipulation.nonnegative_costs,
    AssistedManipulation.nonnegative. simpl.
  repeat split; repeat constructor; simpl; try discriminate.
Defined.

(** The example objective at a singular configuration whose determinant
    comes out as zero: the cost is the factor 1 times [1e20]. *)
Lemma manipulability_cost_bounded_witness :
  exists cost,
    AssistedManipulation.manipulability_cost bool example_jacobian
      example_determinant example_sqrt
      (AssistedManipulation.construct example_objective_configuration 0)
      false = Some cost /\
    0 <= cost /\ cost <= 1 * inject_Z (10 ^ 20).
Proof.
  refine (proj1 (manipulability_cost_bounded bool example_jacobian
                   example_determinant example_sqrt
                   (AssistedManipulation.construct
                      example_objective_configuration 0) false _) _).
  - simpl. discriminate.
  - vm_compute. discriminate.
Defined.

(** ** The point tracking objective *)

Section TrackPointProperties.

Import TrackPoint.

Local Open Scope R_scope.

Lemma penalty_never_lowers (state : list R) (cost : R) (i : nat) :
  cost <= joint_penalty state cost i.
Proof.
  unfold joint_penalty.
  pose proof (pow2_ge_0 (nth i lower_limit 0 - nth i state 0)).
  pose proof (pow2_ge_0 (nth i state 0 - nth i upper_limit 0)).
  destruct (Rlt_dec _ _); destruct (Rlt_dec _ _); lra.
Qed.

Lemma penalty_outside (state : list R) (cost : R) (i : nat) :
  nth i state 0 < nth i lower_limit 0 \/ nth i upper_limit 0 < nth i state 0 ->
  cost + 1000 <= joint_penalty state cost i.
Proof.
  unfold joint_penalty.
  pose proof (pow2_ge_0 (nth i lower_limit 0 - nth i state 0)).
  pose proof (pow2_ge_0 (nth i state 0 - nth i upper_limit 0)).
  intros [Hl|Hu]; destruct (Rlt_dec _ _); destruct (Rlt_dec _ _); lra.
Qed.

Lemma penalty_inside (state : list R) (cost : R) (i : nat) :
  nth i lower_limit 0 <= nth i state 0 <= nth i upper_limit 0 ->
  joint_penalty state cost i = cost.
Proof.
  unfold joint_penalty. intros [Hl Hu].
  destruct (Rlt_dec _ _); [lra|]. destruct (Rlt_dec _ _); [lra|reflexivity].
Qed.

Lemma penalties_never_lower (state : list R) (l : list nat) :
  forall cost, cost <= fold_left (joint_penalty state) l cost.
Proof.
  induction l as [|i l IH]; intros cost; simpl; [apply Rle_refl|].
  eapply Rle_trans; [apply (penalty_never_lowers state cost i)|apply IH].
Qed.

Lemma penalties_outside (state : list R) (l : list nat) (i : nat) :
  In i l ->
  nth i state 0 < nth i lower_limit 0 \/ nth i upper_limit 0 < nth i state 0 ->
  forall cost, cost + 1000 <= fold_left (joint_penalty state) l cost.
Proof.
  intros Hin Hout. induction l as [|j l IH]; intros cost; [contradiction|].
  simpl. destruct Hin as [->|Hin].
  - eapply Rle_trans; [apply (penalty_outside state cost i Hout)|].
    apply penalties_never_lower.
  - eapply Rle_trans; [|apply (IH Hin)].
    pose proof (penalty_never_lowers state cost j). lra.
Qed.

Lemma penalties_inside (state : list R) (l : list nat) :
  (forall i, In i l ->
     nth i lower_limit 0 <= nth i state 0 <= nth i upper_limit 0) ->
  forall cost, fold_left (joint_penalty state) l cost = cost.
Proof.
  induction l as [|i l IH]; intros Hin cost; [reflexivity|].
  simpl. rewrite penalty_inside by (apply Hin; now left).
  apply IH. intros j Hj. apply Hin. now right.
Qed.

Lemma penalties_same (s1 s2 : list R) (l : list nat) :
  (forall i, In i l -> nth i s1 0 = nth i s2 0) ->
  forall cost,
    fold_left (joint_penalty s1) l cost = fold_left (joint_penalty s2) l cost.
Proof.
  induction l as [|i l IH]; intros Hsame cost; [reflexivity|].
  simpl. replace (joint_penalty s1 cost i) with (joint_penalty s2 cost i).
  - apply IH. intros j Hj. apply Hsame. now right.
  - unfold joint_penalty. now rewrite (Hsame i) by now left.
Qed.

Lemma tracking_term (position : R * R * R) :
  (let '(x, y, z) := position in 100 * norm (x - 1, y - 1, z - 1) ^ 2) =
  100 * squared_distance position.
Proof.
  destruct position as [[x y] z]. unfold norm, squared_distance.
  rewrite pow2_sqrt; [reflexivity|].
  pose proof (Rle_0_sqr (x - 1)). pose proof (Rle_0_sqr (y - 1)).
  pose proof (Rle_0_sqr (z - 1)). unfold Rsqr in *. lra.
Qed.

(** The cost of tracking the point (1, 1, 1): it is at least a hundred times
    the squared distance of the end effector to the point, hence never
    negative; it is exactly that when each of the first ten coordinates of
    the state is within its limits; a coordinate among them outside of its
    limits adds at least 1000; and the cost does not depend on the
    coordinates of the state after the tenth, whose limits are written and
    never read. *)
Theorem track_point_cost_bounds (position : R * R * R) (state : list R) :
  0 <= 100 * squared_distance position <= get_cost position state /\
  ((forall i, (i < 10)%nat ->
      nth i lower_limit 0 <= nth i state 0 <= nth i upper_limit 0) ->
   get_cost position state = 100 * squared_distance position) /\
  (forall i, (i < 10)%nat ->
     nth i state 0 < nth i lower_limit 0 \/
     nth i upper_limit 0 < nth i state 0 ->
     100 * squared_distance position + 1000 <= get_cost position state) /\
  (forall state',
     (forall i, (i < 10)%nat -> nth i state 0 = nth i state' 0) ->
     get_cost position state = get_cost position state').
Proof.
  pose proof (tracking_term position) as Hterm.
  assert (Hcost : forall s,
            get_cost position s =
            fold_left (joint_penalty s) (seq 0 10)
              (100 * squared_distance position)).
  { intros s. rewrite <- Hterm. unfold get_cost.
    now destruct position as [[x y] z]. }
  rewrite Hcost. split; [|split; [|split]].
  - split; [|apply penalties_never_lower].
    destruct position as [[x y] z]. unfold squared_distance.
    pose proof (Rle_0_sqr (x - 1)). pose proof (Rle_0_sqr (y - 1)).
    pose proof (Rle_0_sqr (z - 1)). unfold Rsqr in *. lra.
  - intros Hin. apply penalties_inside. intros i Hi.
    apply Hin. apply in_seq in Hi. lia.
  - intros i Hi Hout. apply (penalties_outside state _ i); [|exact Hout].
    apply in_seq. lia.
  - intros state' Hsame. rewrite Hcost. apply penalties_same.
    intros i Hi. apply Hsame. apply in_seq in Hi. lia.
Qed.

End TrackPointProperties.

(** ** Successive draws of the Gaussian sampler *)

Section GaussianStream.

Import Gaussian.

Local Open Scope R_scope.

Variable Generator : Type.
Variable s_distribution : Generator -> R * Generator.

Let draw_normals := Gaussian.draw_normals Generator s_distribution.
Let sample := Gaussian.sample Generator s_distribution.
Let advance := Gaussian.advance Generator s_distribution.

Lemma advance_add (n i : nat) (generator : Generator) :
  advance i (advance n generator) = advance (n + i) generator.
Proof.
  unfold advance. induction i as [|i IH]; simpl.
  - now rewrite Nat.add_0_r.
  - rewrite IH. now rewrite Nat.add_succ_r.
Qed.

Lemma sample_unfolded (g : t) (generator : Generator) :
  sample g generator =
  (vplus (m_mean g)
     (mat_vec (m_transform g)
        (fst (draw_normals (length (m_mean g)) generator))),
   advance (length (m_mean g)) generator).
Proof.
  unfold sample, Gaussian.sample.
  destruct (draw_normals_spec Generator s_distribution
              (length (m_mean g)) generator) as (_ & Hgen & _).
  unfold draw_normals, advance.
  destruct (Gaussian.draw_normals Generator s_distribution
              (length (m_mean g)) generator) as [z g'].
  simpl in *. now rewrite Hgen.
Qed.

(** Draws share one generator and consume it in order: each draw of an
    [n]-dimensional sampler takes [n] samples, so the second of two draws
    is computed from the samples [n], ..., [2n - 1] of the stream, and a
    draw has the dimension of the mean when the transform has [n] rows. *)
Theorem gaussian_draws_consume_stream (g : t) (generator : Generator) :
  let n := length (m_mean g) in
  let first := sample g generator in
  let second := sample g (snd first) in
  let z := fst (draw_normals n (snd first)) in
  snd first = advance n generator /\
  snd second = advance (n + n) generator /\
  fst second = vplus (m_mean g) (mat_vec (m_transform g) z) /\
  length z = n /\
  (forall i, (i < n)%nat ->
     at_ z i = fst (s_distribution (advance (n + i) generator))) /\
  (length (m_transform g) = n -> length (fst first) = n).
Proof.
  intros n first second z. subst first second z.
  rewrite !sample_unfolded. fold n. cbn [fst snd].
  destruct (draw_normals_spec Generator s_distribution n (advance n generator))
    as (Hlen & _ & Hnth).
  repeat split.
  - apply advance_add.
  - exact Hlen.
  - intros i Hi. unfold draw_normals. rewrite (Hnth i Hi).
    fold advance. now rewrite advance_add.
  - intros HT. unfold vplus, mat_vec.
    rewrite length_map, length_combine, length_map.
    apply Nat.min_l. apply Nat.eq_le_incl. symmetry. exact HT.
Qed.

End GaussianStream.
